(** * Mercor job monitor: a shallow embedding of [monitor.py]

    The monitor is one sequential pipeline: load the configuration, load the
    list of seen job ids, scrape the listing page, diff, notify by mail and
    persist the extended list.  The embedding keeps that shape.  Python
    values become Rocq values ([str] is [string], a list is a [list], the
    [set] built from the seen ids is a [gset string]); the effects of the
    script (files, standard output, the browser, the mail relay, the clock,
    exceptions and [sys.exit]) are threaded through a state-and-exception
    monad [M].

    A character of a [string] stands for the code point of its number, so the
    texts of the model are the Python strings whose code points are below 256.
    The one literal of the script with characters outside ASCII, the start of
    the mail subject, is kept as the bytes of the source file.

    What the script merely calls is taken at its interface: the [json]
    module is a codec between file text and values (class [JsonCodec], with a
    reference instance [ref_codec] further down), the browser and the mail
    relay are part of the [world] the run executes in.  The
    import-time fallback that installs playwright is not part of [main] and
    is not modelled. *)

From Stdlib Require Import Ascii.
From Stdlib Require String.
From stdpp Require Import gmap strings list fin_maps pretty.

(** * Python run-time values *)

(** An exception object: its class and the text [str(e)] prints. *)
Record exn := Exception { exn_class : string; exn_text : string }.

(** How a Python computation ends: with a value, with an exception in
    flight, or with [SystemExit] raised by [sys.exit]. *)
Inductive outcome (A : Type) : Type :=
| Ok (a : A)
| Raised (e : exn)
| Exited (code : Z).
Arguments Ok {A} a.
Arguments Raised {A} e.
Arguments Exited {A} code.

(** The status the interpreter hands to the operating system. *)
Definition exit_status {A} (r : outcome A) : Z :=
  match r with
  | Ok _ => 0
  | Raised _ => 1
  | Exited code => code
  end.

Definition dq : string := String "034"%char EmptyString.
Definition nl : string := String "010"%char EmptyString.
Definition unlines (ls : list string) : string := String.concat nl ls.

(** ** [str] methods used by the script *)
Module PyStr.

(** [strip_prefix p s] is the rest of [s] after a leading [p], if any. *)
Fixpoint strip_prefix (p s : string) : option string :=
  match p with
  | EmptyString => Some s
  | String a p' =>
      match s with
      | EmptyString => None
      | String b s' => if Ascii.eqb a b then strip_prefix p' s' else None
      end
  end.

(** [partition sep s] locates the first (leftmost) occurrence of [sep] in
    [s] and returns the text before it and the text after it. *)
Fixpoint partition (sep s : string) : option (string * string) :=
  match strip_prefix sep s with
  | Some rest => Some (EmptyString, rest)
  | None =>
      match s with
      | EmptyString => None
      | String c s' =>
          match partition sep s' with
          | Some (before, after) => Some (String c before, after)
          | None => None
          end
      end
  end.

(** [sep in s] *)
Definition contains (sep s : string) : bool :=
  match partition sep s with
  | Some _ => true
  | None => false
  end.

(** [s.split(sep)] scans left to right and cuts at every occurrence of
    [sep] that does not overlap the previous one.  Each cut removes at least
    one character when [sep] is not empty, so [String.length s] rounds are
    enough (lemma [split_fuel_enough]). *)
Fixpoint split_fuel (fuel : nat) (sep s : string) : list string :=
  match fuel with
  | O => [s]
  | S fuel' =>
      match partition sep s with
      | None => [s]
      | Some (before, after) => before :: split_fuel fuel' sep after
      end
  end.

Definition split (sep s : string) : outcome (list string) :=
  match sep with
  | EmptyString => Raised (Exception "ValueError" "empty separator")
  | _ => Ok (split_fuel (String.length s) sep s)
  end.

(** [l[i]] *)
Definition index (l : list string) (i : nat) : outcome string :=
  match l !! i with
  | Some x => Ok x
  | None => Raised (Exception "IndexError" "list index out of range")
  end.

(** White space in the sense of [str.isspace], which is what [str.strip()]
    removes: among the code points below 256 these are the controls 9 to 13
    and 28 to 31, the space, the next-line control (133) and the no-break
    space (160). *)
Definition is_space (c : ascii) : bool :=
  match c with
  | "009" | "010" | "011" | "012" | "013"
  | "028" | "029" | "030" | "031" | " "
  | "133" | "160" => true
  | _ => false
  end%char.

Fixpoint lstrip (s : string) : string :=
  match s with
  | EmptyString => EmptyString
  | String c s' => if is_space c then lstrip s' else s
  end.

Definition rstrip (s : string) : string := String.rev (lstrip (String.rev s)).

(** [s.strip()] *)
Definition strip (s : string) : string := rstrip (lstrip s).

End PyStr.

(** ** JSON documents

    The two files of the monitor hold a JSON array of strings (the seen ids)
    and a JSON object with string fields (the configuration); these are the
    documents the model knows.  [json.load] also returns values of other
    shapes ([null], a number, a container of containers); no value of this
    type stands for them, so a statement about a loaded document speaks of a
    file that holds an array of strings or an object with string fields. *)
Inductive json :=
| JList (items : list string)
| JDict (fields : gmap string string).

(** The [json] module: [json.dump(v, f, indent=2)] writes [json_dumps v];
    [json.load] returns the document the text denotes, and [None] stands for
    the [JSONDecodeError] it raises on a text that is not JSON.  A text that
    is JSON of another shape (see above) has no answer in this interface: it
    is outside the model, and no property below is to be read at such a
    file.  The law is the module's contract: what it writes, it reads
    back. *)
Class JsonCodec := {
  json_dumps : json → string;
  json_loads : string → option json;
  json_loads_dumps : ∀ v, json_loads (json_dumps v) = Some v
}.

(** [set(v)]: the elements of a list, the keys of a dict. *)
Definition py_set (v : json) : gset string :=
  match v with
  | JList items => list_to_set items
  | JDict fields => dom fields
  end.

(** [v[key]] *)
Definition py_getitem (v : json) (key : string) : outcome string :=
  match v with
  | JDict fields =>
      match fields !! key with
      | Some x => Ok x
      | None => Raised (Exception "KeyError" key)
      end
  | JList _ =>
      Raised (Exception "TypeError" "list indices must be integers or slices, not str")
  end.

(** [v.get(key, fallback)] *)
Definition py_get (v : json) (key fallback : string) : outcome string :=
  match v with
  | JDict fields => Ok (default fallback (fields !! key))
  | JList _ =>
      Raised (Exception "AttributeError" "'list' object has no attribute 'get'")
  end.

(** * Data model *)

(** One listing, the dict built in [scrape_jobs]. *)
Record JobRecord := {
  id : string;
  title : string;
  pay : string;
  hired : string;
  url : string;
  found_at : string
}.

Global Instance JobRecord_eq_dec : EqDecision JobRecord.
Proof. solve_decision. Defined.

(** A reading of the wall clock.  [str] and [isoformat] differ in the
    separator between the date and the time of day. *)
Record datetime := { dt_date : string; dt_time : string }.

Definition dt_str (d : datetime) : string := dt_date d +:+ " " +:+ dt_time d.
Definition isoformat (d : datetime) : string := dt_date d +:+ "T" +:+ dt_time d.

(** A link element matched by the selector: its [href] and the inner text of
    the three optional children the script queries. *)
Record anchor := {
  href : string;
  h3_text : option string;
  pay_text : option string;
  hired_text : option string
}.

(** An element handle either answers the queries or raises on the first of
    them (a handle that went stale, for instance). *)
Inductive element :=
| Live (a : anchor)
| Stale (e : exn).

(** What the page does once the browser runs: navigation or the wait for the
    selector fails, or the selector matches a list of elements. *)
Inductive page :=
| PageError (e : exn)
| Listing (elements : list element).

(** The browser may fail to launch at all. *)
Inductive browser :=
| LaunchError (e : exn)
| Launched (p : page).

(** The mail relay accepts the session or fails at one of its three steps. *)
Inductive relay :=
| Accepts
| RefusesConnection (e : exn)
| RejectsLogin (e : exn)
| RejectsMessage (e : exn).

(** The part of [MIMEMultipart] the script fills in. *)
Record message := {
  msg_subject : string;
  msg_from : string;
  msg_to : string;
  msg_html : string
}.

(** Every operation attempted on the relay is recorded, also a failing one. *)
Inductive smtp_event :=
| Connect (host : string) (port : Z)
| Login (user password : string)
| Send (m : message)
| Quit.

(** What a run cannot change: the environment variables, the web site, the
    relay and the clock ([clock w n] is the [n]-th reading). *)
Record world := {
  environ : gmap string string;
  site : browser;
  mail_relay : relay;
  clock : nat → datetime
}.

(** What a run can change: the files in the working directory, standard
    output, the traffic with the relay, the number of clock readings taken
    and whether a browser process is alive. *)
Record state := {
  files : gmap string string;
  stdout : list string;
  smtp_log : list smtp_event;
  ticks : nat;
  browser_running : bool
}.

Definition set_files (f : gmap string string) (st : state) : state :=
  {| files := f; stdout := stdout st; smtp_log := smtp_log st;
     ticks := ticks st; browser_running := browser_running st |}.
Definition set_stdout (o : list string) (st : state) : state :=
  {| files := files st; stdout := o; smtp_log := smtp_log st;
     ticks := ticks st; browser_running := browser_running st |}.
Definition set_smtp_log (l : list smtp_event) (st : state) : state :=
  {| files := files st; stdout := stdout st; smtp_log := l;
     ticks := ticks st; browser_running := browser_running st |}.
Definition set_ticks (n : nat) (st : state) : state :=
  {| files := files st; stdout := stdout st; smtp_log := smtp_log st;
     ticks := n; browser_running := browser_running st |}.
Definition set_browser_running (b : bool) (st : state) : state :=
  {| files := files st; stdout := stdout st; smtp_log := smtp_log st;
     ticks := ticks st; browser_running := b |}.

(** * The monad of the script *)

Definition M (A : Type) : Type := state → outcome A * state.

Definition ret {A} (a : A) : M A := λ st, (Ok a, st).

Definition bind {A B} (m : M A) (k : A → M B) : M B :=
  λ st,
    match m st with
    | (Ok a, st') => k a st'
    | (Raised e, st') => (Raised e, st')
    | (Exited c, st') => (Exited c, st')
    end.

Declare Scope py_scope.
Delimit Scope py_scope with py.
Notation "x ← m ; k" := (bind m (λ x, k))
  (at level 20, m at level 100, k at level 200, only parsing) : py_scope.
Notation "m ;; k" := (bind m (λ _, k))
  (at level 100, k at level 200, right associativity, only parsing) : py_scope.
Open Scope py_scope.

(** [raise e] *)
Definition raise {A} (e : exn) : M A := λ st, (Raised e, st).

(** [sys.exit(code)] *)
Definition sys_exit {A} (code : Z) : M A := λ st, (Exited code, st).

(** A pure computation that may raise. *)
Definition lift {A} (r : outcome A) : M A := λ st, (r, st).

(** [try: body except Exception as e: handler e].  [SystemExit] is not an
    [Exception] and passes through. *)
Definition try_except {A} (body : M A) (handler : exn → M A) : M A :=
  λ st,
    match body st with
    | (Raised e, st') => handler e st'
    | r => r
    end.

(** [try: body finally: cleanup].  The cleanup runs on every way out of the
    body; when it ends normally the body's outcome stands. *)
Definition try_finally {A} (body : M A) (cleanup : M unit) : M A :=
  λ st,
    match body st with
    | (r, st') =>
        match cleanup st' with
        | (Ok _, st'') => (r, st'')
        | (Raised e, st'') => (Raised e, st'')
        | (Exited c, st'') => (Exited c, st'')
        end
    end.

(** [print(line)] *)
Definition print (line : string) : M unit :=
  λ st, (Ok tt, set_stdout (stdout st ++ [line]) st).

(** [datetime.now()] *)
Definition datetime_now (w : world) : M datetime :=
  λ st, (Ok (clock w (ticks st)), set_ticks (S (ticks st)) st).

(** [Path(name).exists()] *)
Definition path_exists (name : string) : M bool :=
  λ st, (Ok (bool_decide (is_Some (files st !! name))), st).

(** [open(name, 'r')] and reading the whole file. *)
Definition read_file (name : string) : M string :=
  λ st,
    match files st !! name with
    | Some text => (Ok text, st)
    | None => (Raised (Exception "FileNotFoundError" name), st)
    end.

(** [open(name, 'w')] and writing [text]: the old contents are replaced. *)
Definition write_file (name text : string) : M unit :=
  λ st, (Ok tt, set_files (<[name := text]> (files st)) st).

(** One operation on the relay. *)
Definition smtp (ev : smtp_event) : M unit :=
  λ st, (Ok tt, set_smtp_log (smtp_log st ++ [ev]) st).

(** [p.chromium.launch(...)] succeeding, and [browser.close()]. *)
Definition browser_started : M unit :=
  λ st, (Ok tt, set_browser_running true st).
Definition browser_close : M unit :=
  λ st, (Ok tt, set_browser_running false st).

(** * The script *)

Definition JOBS_FILE : string := "seen_jobs.json".
Definition CONFIG_FILE : string := "config.json".

Section Monitor.
Context `{JsonCodec}.

(** [json.load(f)] *)
Definition json_load (name : string) : M json :=
  text ← read_file name;
  match json_loads text with
  | Some v => ret v
  | None => raise (Exception "JSONDecodeError" name)
  end.

Definition load_config : M json :=
  present ← path_exists CONFIG_FILE;
  if negb present then
    print ("Error: " +:+ CONFIG_FILE +:+
           " not found. Please create it with your email settings.");;
    sys_exit 1
  else json_load CONFIG_FILE.

Definition load_seen_jobs : M json :=
  present ← path_exists JOBS_FILE;
  if present then json_load JOBS_FILE else ret (JList []).

Definition save_seen_jobs (jobs : list string) : M unit :=
  write_file JOBS_FILE (json_dumps (JList jobs)).

(** [href.split('list_')[1] if 'list_' in href else href] *)
Definition job_id_of (href : string) : outcome string :=
  if PyStr.contains "list_" href then
    match PyStr.split "list_" href with
    | Ok parts => PyStr.index parts 1
    | Raised e => Raised e
    | Exited c => Exited c
    end
  else Ok href.

(** The body of the inner [try] of [scrape_jobs]: one record per element. *)
Definition extract (w : world) (el : element) : M JobRecord :=
  match el with
  | Stale e => raise e
  | Live a =>
      job_id ← lift (job_id_of (href a));
      let title := default "Unknown Title" (h3_text a) in
      let pay := default "Pay not listed" (pay_text a) in
      let hired := default EmptyString (hired_text a) in
      now ← datetime_now w;
      ret {| id := job_id;
             title := PyStr.strip title;
             pay := PyStr.strip pay;
             hired := PyStr.strip hired;
             url := "https://work.mercor.com" +:+ href a;
             found_at := isoformat now |}
  end.

(** The [for element in job_elements] loop; [jobs] is the list built so
    far.  An element that raises is reported and skipped. *)
Fixpoint extract_all (w : world) (els : list element) (jobs : list JobRecord)
  : M (list JobRecord) :=
  match els with
  | [] => ret jobs
  | el :: rest =>
      jobs' ← try_except
                (job ← extract w el; ret (jobs ++ [job]))
                (λ e, print ("Error parsing job element: " +:+ exn_text e);;
                      ret jobs);
      extract_all w rest jobs'
  end.

Definition scrape_jobs (w : world) : M (list JobRecord) :=
  now ← datetime_now w;
  print ("[" +:+ dt_str now +:+ "] Scraping Mercor jobs...");;
  jobs ← match site w with
         | LaunchError e => raise e
         | Launched p =>
             browser_started;;
             try_finally
               (try_except
                  match p with
                  | PageError e => raise e
                  | Listing els => extract_all w els []
                  end
                  (λ e, print ("Error scraping jobs: " +:+ exn_text e);;
                        ret []))
               browser_close
         end;
  print ("Found " +:+ pretty (length jobs) +:+ " total jobs");;
  ret jobs.

(** ['s' if n != 1 else ''] *)
Definition plural (n : nat) : string :=
  if bool_decide (n ≠ 1) then "s" else EmptyString.

Definition subject_of (new_jobs : list JobRecord) : string :=
  "ðŸš¨ " +:+ pretty (length new_jobs) +:+ " New Mercor Job" +:+
  plural (length new_jobs) +:+ " Available!".

Definition html_head (new_jobs : list JobRecord) : string :=
  unlines
    [ EmptyString;
      "    <html>";
      "    <head>";
      "        <style>";
      "            body { font-family: Arial, sans-serif; line-height: 1.6; }";
      "            .job { ";
      "                border: 1px solid #ddd; ";
      "                border-radius: 8px; ";
      "                padding: 15px; ";
      "                margin: 15px 0; ";
      "                background: #f9f9f9;";
      "            }";
      "            .job-title { ";
      "                color: #2c3e50; ";
      "                font-size: 18px; ";
      "                font-weight: bold; ";
      "                margin-bottom: 8px;";
      "            }";
      "            .job-pay { ";
      "                color: #27ae60; ";
      "                font-size: 16px; ";
      "                font-weight: bold;";
      "            }";
      "            .job-link { ";
      "                display: inline-block;";
      "                margin-top: 10px;";
      "                padding: 8px 16px;";
      "                background: #3498db;";
      "                color: white;";
      "                text-decoration: none;";
      "                border-radius: 4px;";
      "            }";
      "            .timestamp { color: #7f8c8d; font-size: 12px; }";
      "        </style>";
      "    </head>";
      "    <body>";
      "        <h2>New Jobs on Mercor</h2>";
      "        <p>Found " +:+ pretty (length new_jobs) +:+ " new job posting" +:+
        plural (length new_jobs) +:+ ":</p>";
      "    " ].

Definition html_job (job : JobRecord) : string :=
  unlines
    [ EmptyString;
      "        <div class=" +:+ dq +:+ "job" +:+ dq +:+ ">";
      "            <div class=" +:+ dq +:+ "job-title" +:+ dq +:+ ">" +:+
        title job +:+ "</div>";
      "            <div class=" +:+ dq +:+ "job-pay" +:+ dq +:+ ">" +:+
        pay job +:+ "</div>";
      "            <div>" +:+ hired job +:+ "</div>";
      "            <a href=" +:+ dq +:+ url job +:+ dq +:+ " class=" +:+ dq +:+
        "job-link" +:+ dq +:+ ">Apply Now</a>";
      "            <div class=" +:+ dq +:+ "timestamp" +:+ dq +:+ ">Found: " +:+
        found_at job +:+ "</div>";
      "        </div>";
      "        " ].

Definition html_tail : string :=
  unlines
    [ EmptyString;
      "        <hr>";
      "        <p style=" +:+ dq +:+ "color: #7f8c8d; font-size: 12px;" +:+ dq +:+ ">";
      "            This is an automated notification from your Mercor Job Monitor.";
      "        </p>";
      "    </body>";
      "    </html>";
      "    " ].

(** [html_body] after the loop over the new jobs and the closing block. *)
Definition html_body_of (new_jobs : list JobRecord) : string :=
  foldl (λ body job, body +:+ html_job job) (html_head new_jobs) new_jobs
  +:+ html_tail.

(** [not smtp_password]: the variable is unset or set to the empty string. *)
Definition falsy (v : option string) : bool :=
  match v with
  | None => true
  | Some EmptyString => true
  | Some _ => false
  end.

(** The [with smtplib.SMTP_SSL(...) as server] block: connecting, then the
    body, and [QUIT] on every way out of the body. *)
Definition smtp_session (w : world) (config : json)
    (recipient password : string) (msg : message) : M unit :=
  smtp (Connect "smtp.gmail.com" 465);;
  match mail_relay w with
  | RefusesConnection e => raise e
  | answer =>
      try_finally
        (user ← lift (py_get config "smtp_user" recipient);
         smtp (Login user password);;
         match answer with
         | RejectsLogin e => raise e
         | _ =>
             smtp (Send msg);;
             match answer with
             | RejectsMessage e => raise e
             | _ => ret tt
             end
         end)
        (smtp Quit)
  end.

Definition send_email (w : world) (config : json) (new_jobs : list JobRecord)
  : M unit :=
  recipient ← lift (py_getitem config "email");
  let subject := subject_of new_jobs in
  let html_body := html_body_of new_jobs in
  try_except
    (sender ← lift (py_get config "smtp_from" recipient);
     let msg := {| msg_subject := subject; msg_from := sender;
                   msg_to := recipient; msg_html := html_body |} in
     let smtp_password := environ w !! "SMTP_PASSWORD" in
     if falsy smtp_password then
       print "Warning: SMTP_PASSWORD not set. Skipping email."
     else
       smtp_session w config recipient (default EmptyString smtp_password) msg;;
       print ("Email sent successfully to " +:+ recipient))
    (λ e, print ("Error sending email: " +:+ exn_text e)).

(** [[job for job in current_jobs if job['id'] not in seen_ids]] *)
Definition new_jobs_of (seen_ids : gset string) (current_jobs : list JobRecord)
  : list JobRecord :=
  filter (λ job, id job ∉ seen_ids) current_jobs.

(** The [for job in new_jobs: print(...)] loop. *)
Fixpoint print_jobs (jobs : list JobRecord) : M unit :=
  match jobs with
  | [] => ret tt
  | job :: rest =>
      print ("  - " +:+ title job +:+ " (" +:+ pay job +:+ ")");;
      print_jobs rest
  end.

Definition main (w : world) : M unit :=
  config ← load_config;
  seen_jobs ← load_seen_jobs;
  current_jobs ← scrape_jobs w;
  match current_jobs with
  | [] =>
      print "No jobs found. The page might have changed or failed to load."
  | _ :: _ =>
      let seen_ids := py_set seen_jobs in
      let new_jobs := new_jobs_of seen_ids current_jobs in
      match new_jobs with
      | _ :: _ =>
          print ("Found " +:+ pretty (length new_jobs) +:+ " new job(s)!");;
          print_jobs new_jobs;;
          send_email w config new_jobs;;
          let all_job_ids := elements seen_ids ++ (id <$> new_jobs) in
          save_seen_jobs all_job_ids
      | [] => print "No new jobs found."
      end
  end.

End Monitor.

(** ** Vocabulary of the properties *)

(** The component [f] of the state is the same before and after. *)
Definition same {B} (f : state → B) : relation state :=
  λ st st', f st' = f st.

(** Neither the files nor the traffic with the mail relay changed. *)
Definition quiet : relation state :=
  λ st st', files st' = files st ∧ smtp_log st' = smtp_log st.

Definition preserves {A} (R : relation state) (m : M A) : Prop :=
  ∀ st r st', m st = (r, st') → R st st'.

(** The diff as the specification words it: [new] holds exactly the elements
    of the scraped list whose id is not among the seen ids, in the order of
    the scraped list. *)
Inductive kept_in_order (seen_ids : gset string)
  : list JobRecord → list JobRecord → Prop :=
| kept_nil : kept_in_order seen_ids [] []
| kept_seen job current new :
    id job ∈ seen_ids →
    kept_in_order seen_ids current new →
    kept_in_order seen_ids (job :: current) new
| kept_new job current new :
    id job ∉ seen_ids →
    kept_in_order seen_ids current new →
    kept_in_order seen_ids (job :: current) (job :: new).

(** The file [name] does not exist. *)
Definition missing (name : string) (st : state) : Prop :=
  files st !! name = None.

(** The file [name] exists and [json.load] rejects its text. *)
Definition unreadable `{JsonCodec} (name : string) (st : state) : Prop :=
  ∃ text, files st !! name = Some text ∧ json_loads text = None.



(** [x in v]: [x] is an item of the list, or a key of the dict. *)
Definition member (x : string) (v : json) : Prop :=
  match v with
  | JList items => x ∈ items
  | JDict fields => is_Some (fields !! x)
  end.

(** Standard output only grew: what was printed before is still there. *)
Definition grows : relation state :=
  λ st st', ∃ rest, stdout st' = stdout st ++ rest.

(** What a run prints about the list of new jobs right after the scraper's
    output: their number and one line per job, or that there is none. *)
Definition job_line (job : JobRecord) : string :=
  "  - " +:+ title job +:+ " (" +:+ pay job +:+ ")".

Definition report (new : list JobRecord) : list string :=
  match new with
  | [] => ["No new jobs found."]
  | _ :: _ =>
      ("Found " +:+ pretty (length new) +:+ " new job(s)!") :: (job_line <$> new)
  end.

(** ** Occurrences of a marker, stated without reference to the scan *)

(** [sep] occurs somewhere in [s]. *)
Definition occurs (sep s : string) : Prop := ∃ u v, s = u +:+ sep +:+ v.

(** [before] and [after] surround the leftmost occurrence of [sep] in [s]. *)
Definition first_cut (sep s before after : string) : Prop :=
  s = before +:+ sep +:+ after ∧
  ∀ u v, s = u +:+ sep +:+ v → String.length before ≤ String.length u.

(** ** Vocabulary of the further properties *)

(** The anchors of the elements that answer, and the exceptions of those that
    do not, both in page order. *)
Definition live (els : list element) : list anchor :=
  omap (λ el, match el with Live a => Some a | Stale _ => None end) els.
Definition stale (els : list element) : list exn :=
  omap (λ el, match el with Live _ => None | Stale e => Some e end) els.

(** [s] is all white space. *)
Fixpoint blank (s : string) : bool :=
  match s with
  | EmptyString => true
  | String c s' => PyStr.is_space c && blank s'
  end.

(** [s] neither starts nor ends with white space. *)
Definition trimmed (s : string) : Prop :=
  (∀ c t, s = String c t → PyStr.is_space c = false) ∧
  (∀ c t, s = t +:+ String c EmptyString → PyStr.is_space c = false).

(** [s] is [raw] without the white space at its two ends. *)
Definition trimming (raw s : string) : Prop :=
  trimmed s ∧ ∃ l r, raw = l +:+ s +:+ r ∧ blank l = true ∧ blank r = true.

(** What a record owes to its anchor apart from the white space of the
    texts: the id comes from the link target, the url is the link target on
    the site's origin, the time stamp is a reading of the clock, and a text
    the anchor lacks is replaced by its placeholder. *)
Definition record_link (w : world) (a : anchor) (job : JobRecord) : Prop :=
  job_id_of (href a) = Ok (id job) ∧
  url job = "https://work.mercor.com" +:+ href a ∧
  (∃ n, found_at job = isoformat (clock w n)) ∧
  (h3_text a = None → title job = "Unknown Title") ∧
  (pay_text a = None → pay job = "Pay not listed") ∧
  (hired_text a = None → hired job = EmptyString).

(** The three texts of a record are the inner texts of the anchor, or the
    placeholders, without the white space at their ends. *)
Definition record_texts (a : anchor) (job : JobRecord) : Prop :=
  trimming (default "Unknown Title" (h3_text a)) (title job) ∧
  trimming (default "Pay not listed" (pay_text a)) (pay job) ∧
  trimming (default EmptyString (hired_text a)) (hired job).

(** [job] is a record of the anchor [a]. *)
Definition record_of (w : world) (a : anchor) (job : JobRecord) : Prop :=
  record_link w a job ∧ record_texts a job.

(** The line the scraper prints for an element that raised. *)
Definition parse_error_line (e : exn) : string :=
  "Error parsing job element: " +:+ exn_text e.

(** The anchors a site yields records for: those of the live elements of its
    listing, none when the page fails or the browser does not launch. *)
Definition page_anchors (b : browser) : list anchor :=
  match b with
  | Launched (Listing els) => live els
  | _ => []
  end.

(** The exception a relay raises, if it raises. *)
Definition relay_error (r : relay) : option exn :=
  match r with
  | Accepts => None
  | RefusesConnection e | RejectsLogin e | RejectsMessage e => Some e
  end.

(** * A reference codec

    The text [json.dump(v, f, indent=2)] writes for the documents of the
    model (default [ensure_ascii]), and a reader for it.  The reader is for
    the sample runs: it reads back what the writer wrote and answers [None]
    on every other text, those that are not JSON (as [json.load] rejects
    them) and also those that are JSON of a shape outside the model, where
    [json.load] would return a value; the sample runs rely on the answer
    [None] only for a text that is not JSON. *)
Module RefJson.

Definition bs : string := String "092"%char EmptyString.

(** The lower-case hexadecimal digit of a number below 16. *)
Definition hex_digit (n : N) : ascii :=
  ascii_of_N (if bool_decide (n < 10)%N then 48 + n else 87 + n).

(** The escape table of the encoder: the two-character escapes, then
    [\u00XX] for everything else outside the printable ASCII range. *)
Definition esc_char (c : ascii) : string :=
  match c with
  | "034" => bs +:+ dq
  | "092" => bs +:+ bs
  | "008" => bs +:+ "b"
  | "012" => bs +:+ "f"
  | "010" => bs +:+ "n"
  | "013" => bs +:+ "r"
  | "009" => bs +:+ "t"
  | _ =>
      let n := N_of_ascii c in
      if bool_decide (32 ≤ n ≤ 126)%N then String c EmptyString
      else bs +:+ "u00" +:+
           String (hex_digit (n / 16)) (String (hex_digit (n mod 16)) EmptyString)
  end%char.

Fixpoint esc_string (s : string) : string :=
  match s with
  | EmptyString => EmptyString
  | String c s' => esc_char c +:+ esc_string s'
  end.

Definition quoted (s : string) : string := dq +:+ esc_string s +:+ dq.

Definition dump_item (s : string) : string := nl +:+ "  " +:+ quoted s.

Definition dump_field (kv : string * string) : string :=
  nl +:+ "  " +:+ quoted kv.1 +:+ ": " +:+ quoted kv.2.

(** The items of a non-empty container, one per line, separated by commas. *)
Fixpoint dump_seq {A} (item : A → string) (x : A) (xs : list A) : string :=
  match xs with
  | [] => item x
  | y :: ys => item x +:+ "," +:+ dump_seq item y ys
  end.

Definition dumps (v : json) : string :=
  match v with
  | JList [] => "[]"
  | JList (x :: xs) => "[" +:+ dump_seq dump_item x xs +:+ nl +:+ "]"
  | JDict fields =>
      match map_to_list fields with
      | [] => "{}"
      | kv :: kvs => "{" +:+ dump_seq dump_field kv kvs +:+ nl +:+ "}"
      end
  end.

(** ** Reading *)

Inductive token :=
| LBracket | RBracket | LBrace | RBrace | Comma | Colon
| Text (s : string).

(** Where the scanner is: between tokens, inside a string literal (with the
    characters read so far), after a backslash, or inside [\uXXXX] with
    [todo] digits to go. *)
Inductive mode :=
| Out
| Str (cur : string)
| Esc (cur : string)
| Uni (cur : string) (todo : nat) (acc : N).

Definition is_ws (c : ascii) : bool :=
  match c with
  | " " | "009" | "010" | "013" => true
  | _ => false
  end%char.

Definition punct (c : ascii) : option token :=
  match c with
  | "[" => Some LBracket | "]" => Some RBracket
  | "{" => Some LBrace | "}" => Some RBrace
  | "," => Some Comma | ":" => Some Colon
  | _ => None
  end%char.

Definition unescape (c : ascii) : option ascii :=
  match c with
  | "034" => Some "034" | "092" => Some "092" | "/" => Some "/"
  | "b" => Some "008" | "f" => Some "012" | "n" => Some "010"
  | "r" => Some "013" | "t" => Some "009"
  | _ => None
  end%char.

(** The value of a hexadecimal digit, in either case. *)
Definition hex_value (c : ascii) : option N :=
  let n := N_of_ascii c in
  if bool_decide (48 ≤ n ≤ 57)%N then Some (n - 48)%N
  else if bool_decide (97 ≤ n ≤ 102)%N then Some (n - 87)%N
  else if bool_decide (65 ≤ n ≤ 70)%N then Some (n - 55)%N
  else None.

Definition snoc (s : string) (c : ascii) : string := s +:+ String c EmptyString.

Fixpoint lex (m : mode) (s : string) : option (list token) :=
  match s with
  | EmptyString => match m with Out => Some [] | _ => None end
  | String c s' =>
      match m with
      | Out =>
          if is_ws c then lex Out s'
          else match punct c with
               | Some t => cons t <$> lex Out s'
               | None => if Ascii.eqb c "034" then lex (Str EmptyString) s' else None
               end
      | Str cur =>
          if Ascii.eqb c "034" then cons (Text cur) <$> lex Out s'
          else if Ascii.eqb c "092" then lex (Esc cur) s'
          else if bool_decide (N_of_ascii c < 32)%N then None
          else lex (Str (snoc cur c)) s'
      | Esc cur =>
          match unescape c with
          | Some d => lex (Str (snoc cur d)) s'
          | None => if Ascii.eqb c "u" then lex (Uni cur 4 0) s' else None
          end
      | Uni cur todo acc =>
          match hex_value c with
          | None => None
          | Some d =>
              let acc' := (16 * acc + d)%N in
              match todo with
              | 1 => if bool_decide (acc' < 256)%N
                     then lex (Str (snoc cur (ascii_of_N acc'))) s'
                     else None
              | S todo' => lex (Uni cur todo' acc') s'
              | O => None
              end
          end
      end
  end.

(** After an item of an array: a comma and another item, or the end. *)
Fixpoint list_tail (ts : list token) : option (list string) :=
  match ts with
  | [RBracket] => Some []
  | Comma :: Text s :: ts' => cons s <$> list_tail ts'
  | _ => None
  end.

Fixpoint dict_tail (ts : list token) : option (list (string * string)) :=
  match ts with
  | [RBrace] => Some []
  | Comma :: Text k :: Colon :: Text v :: ts' => cons (k, v) <$> dict_tail ts'
  | _ => None
  end.

(** A key that occurs twice keeps its last value, as in a Python dict. *)
Definition dict_of (kvs : list (string * string)) : gmap string string :=
  list_to_map (reverse kvs).

Definition parse (ts : list token) : option json :=
  match ts with
  | [LBracket; RBracket] => Some (JList [])
  | LBracket :: Text s :: ts' => (λ l, JList (s :: l)) <$> list_tail ts'
  | [LBrace; RBrace] => Some (JDict ∅)
  | LBrace :: Text k :: Colon :: Text v :: ts' =>
      (λ kvs, JDict (dict_of ((k, v) :: kvs))) <$> dict_tail ts'
  | _ => None
  end.

Definition loads (text : string) : option json := lex Out text ≫= parse.

End RefJson.

(** * Sample runs

    A working directory, a listing page and a few worlds around them, used to
    run [main] on concrete inputs. *)
Module Sample.

Definition noon : datetime :=
  {| dt_date := "2025-01-01"; dt_time := "12:00:00.000000" |}.

Definition config : gmap string string := {[ "email" := "me@example.org" ]}.

(** A working directory with a configuration and a seen-jobs file. *)
Definition dir (cfg : gmap string string) (seen : list string)
  : gmap string string :=
  {[ CONFIG_FILE := RefJson.dumps (JDict cfg);
     JOBS_FILE := RefJson.dumps (JList seen) ]}.

Definition start (fs : gmap string string) : state :=
  {| files := fs; stdout := []; smtp_log := []; ticks := 0;
     browser_running := false |}.

Definition link (target heading : string) : element :=
  Live {| href := target; h3_text := Some heading;
          pay_text := Some "$25/hr"; hired_text := None |}.

Definition job (ident target heading : string) : JobRecord :=
  {| id := ident; title := heading; pay := "$25/hr"; hired := EmptyString;
     url := "https://work.mercor.com" +:+ target;
     found_at := "2025-01-01T12:00:00.000000" |}.

Definition world_of (env : gmap string string) (b : browser) (r : relay)
  : world :=
  {| environ := env; site := b; mail_relay := r; clock := λ _, noon |}.

(** The page times out. *)
Definition timeout : browser :=
  Launched (PageError (Exception "TimeoutError" "Timeout 30000ms exceeded.")).

(** The page lists job A and job B. *)
Definition page_AB : browser :=
  Launched (Listing [link "/jobs/list_A" "Annotator";
                     link "/jobs/list_B" "Data Labeler"]).

(** The page lists the same new job twice. *)
Definition page_XX : browser :=
  Launched (Listing [link "/jobs/list_X" "Reviewer";
                     link "/jobs/list_X" "Reviewer"]).

Definition password : gmap string string := {[ "SMTP_PASSWORD" := "app-secret" ]}.

End Sample.

(** More sample inputs: a page with an element that raises, a heading with
    white space around it (a no-break space among it), relays that fail, a second world for the same
    site. *)
Module Sample2.

Definition detached : exn := Exception "Error" "Element is not attached to the DOM".

Definition page_A_stale_B : list element :=
  [Sample.link "/jobs/list_A" "Annotator";
   Stale detached;
   Sample.link "/jobs/list_B" "Data Labeler"].

Definition page_padded : browser :=
  Launched (Listing [Sample.link "/jobs/list_B"
                       (String "160"%char ("  Data Labeler " +:+ nl))]).

Definition auth_error : exn := Exception "SMTPAuthenticationError" "535".

Definition job_B : JobRecord := Sample.job "B" "/jobs/list_B" "Data Labeler".


End Sample2.

(** * Properties *)

(** ** Strings *)

Lemma str_app_cons c (s t : string) : String c s +:+ t = String c (s +:+ t).
Proof. reflexivity. Qed.

Lemma str_app_nil_l (t : string) : EmptyString +:+ t = t.
Proof. reflexivity. Qed.

Lemma str_app_nil_r (s : string) : s +:+ EmptyString = s.
Proof. induction s as [|c s IH]; [done|]. by rewrite str_app_cons, IH. Qed.

Lemma str_app_assoc (s t u : string) : (s +:+ t) +:+ u = s +:+ t +:+ u.
Proof. induction s as [|c s IH]; [done|]. by rewrite !str_app_cons, IH. Qed.

Lemma str_length_app (s t : string) :
  String.length (s +:+ t) = String.length s + String.length t.
Proof. induction s as [|c s IH]; [done|]. rewrite str_app_cons. simpl. by rewrite IH. Qed.

Lemma str_app_eq_length_inv (s1 t1 s2 t2 : string) :
  s1 +:+ t1 = s2 +:+ t2 → String.length s1 = String.length s2 → s1 = s2 ∧ t1 = t2.
Proof.
  revert s2. induction s1 as [|c s1 IH]; intros [|d s2] Heq Hlen; try done.
  rewrite !str_app_cons in Heq. injection Heq as -> Heq. injection Hlen as Hlen.
  by destruct (IH s2 Heq Hlen) as [-> ->].
Qed.

Lemma strip_prefix_Some p s r : PyStr.strip_prefix p s = Some r ↔ s = p +:+ r.
Proof.
  revert s. induction p as [|a p IH]; intros s; simpl.
  - rewrite str_app_nil_l. split; congruence.
  - rewrite str_app_cons. destruct s as [|b s]; [split; discriminate|].
    destruct (Ascii.eqb_spec a b) as [->|Hne].
    + rewrite IH. split; congruence.
    + split; [discriminate|congruence].
Qed.

Lemma partition_sound sep s b a :
  PyStr.partition sep s = Some (b, a) → s = b +:+ sep +:+ a.
Proof.
  revert b a. induction s as [|c s IH]; intros b a; simpl.
  - destruct (PyStr.strip_prefix sep EmptyString) eqn:E; [|done].
    intros [= <- <-]. by apply strip_prefix_Some in E.
  - destruct (PyStr.strip_prefix sep (String c s)) eqn:E.
    + intros [= <- <-]. by apply strip_prefix_Some in E.
    + destruct (PyStr.partition sep s) as [[b' a']|] eqn:E'; [|done].
      intros [= <- <-]. rewrite str_app_cons. f_equal. by apply IH.
Qed.

Lemma partition_complete sep u v :
  ∃ b a, PyStr.partition sep (u +:+ sep +:+ v) = Some (b, a) ∧ String.length b ≤ String.length u.
Proof.
  induction u as [|c u (b & a & IH & Hle)].
  - rewrite str_app_nil_l. exists EmptyString, v. split; [|simpl; lia].
    assert (PyStr.strip_prefix sep (sep +:+ v) = Some v) as E by by apply strip_prefix_Some.
    destruct (sep +:+ v); simpl in *; by rewrite E.
  - rewrite str_app_cons. simpl.
    destruct (PyStr.strip_prefix sep (String c (u +:+ sep +:+ v))) eqn:E.
    + eexists _, _. split; [done|simpl; lia].
    + rewrite IH. eexists _, _. split; [done|simpl; lia].
Qed.

Lemma partition_first sep s b a :
  PyStr.partition sep s = Some (b, a) →
  ∀ u v, s = u +:+ sep +:+ v → String.length b ≤ String.length u.
Proof.
  revert b a. induction s as [|c s IH]; intros b a; simpl.
  - destruct (PyStr.strip_prefix sep EmptyString) eqn:E; [|done].
    intros [= <- <-] u v _. simpl; lia.
  - destruct (PyStr.strip_prefix sep (String c s)) eqn:E.
    + intros [= <- <-] u v _. simpl; lia.
    + destruct (PyStr.partition sep s) as [[b' a']|] eqn:E'; [|done].
      intros [= <- <-] [|d u] v Hs.
      * rewrite str_app_nil_l in Hs.
        apply strip_prefix_Some in Hs. congruence.
      * rewrite str_app_cons in Hs. simplify_eq. simpl.
        specialize (IH _ _ eq_refl _ _ eq_refl). lia.
Qed.

Lemma partition_first_cut sep s b a :
  PyStr.partition sep s = Some (b, a) ↔ first_cut sep s b a.
Proof.
  split.
  - intros Hp. split; [by apply partition_sound|by eapply partition_first].
  - intros [-> Hmin].
    destruct (partition_complete sep b a) as (b' & a' & Hp & Hle).
    rewrite Hp. pose proof (partition_sound _ _ _ _ Hp) as Heq.
    pose proof (Hmin _ _ Heq) as Hge.
    apply str_app_eq_length_inv in Heq as [-> Heq]; [|lia].
    by apply (inj (String.app sep)) in Heq as ->.
Qed.

Lemma contains_occurs sep s : PyStr.contains sep s = true ↔ occurs sep s.
Proof.
  unfold PyStr.contains, occurs. split.
  - destruct (PyStr.partition sep s) as [[b a]|] eqn:E; [|done].
    intros _. exists b, a. by apply partition_sound.
  - intros (u & v & ->).
    by destruct (partition_complete sep u v) as (b & a & -> & _).
Qed.

Lemma partition_empty sep :
  sep ≠ EmptyString → PyStr.partition sep EmptyString = None.
Proof. by destruct sep. Qed.

Lemma partition_shorter sep s b a :
  sep ≠ EmptyString → PyStr.partition sep s = Some (b, a) →
  String.length a < String.length s.
Proof.
  intros Hsep ->%partition_sound. rewrite !str_length_app.
  destruct sep; [done|]. simpl. lia.
Qed.

(** The fuel of [split] never runs out: any amount at least the length of the
    text gives the same pieces. *)
Lemma split_fuel_enough sep n m s :
  sep ≠ EmptyString → String.length s ≤ n → String.length s ≤ m →
  PyStr.split_fuel n sep s = PyStr.split_fuel m sep s.
Proof.
  intros Hsep. revert m s.
  induction n as [|n IH]; intros [|m] s Hn Hm; simpl; try done.
  - destruct s; [|simpl in Hn; lia]. by rewrite partition_empty.
  - destruct s; [|simpl in Hm; lia]. by rewrite partition_empty.
  - destruct (PyStr.partition sep s) as [[b a]|] eqn:E; [|done].
    pose proof (partition_shorter _ _ _ _ Hsep E). f_equal. apply IH; lia.
Qed.

Lemma split_unfold sep s :
  sep ≠ EmptyString →
  PyStr.split sep s =
  Ok match PyStr.partition sep s with
     | None => [s]
     | Some (b, a) =>
         b :: PyStr.split_fuel (String.length a) sep a
     end.
Proof.
  intros Hsep. unfold PyStr.split.
  destruct sep as [|c0 sep0] eqn:Esep; [done|]. rewrite <-Esep in *. f_equal.
  destruct (String.length s) as [|n] eqn:Hlen; simpl.
  - destruct s; [|done]. by rewrite partition_empty.
  - destruct (PyStr.partition sep s) as [[b a]|] eqn:E; [|done].
    pose proof (partition_shorter _ _ _ _ Hsep E). f_equal.
    apply split_fuel_enough; [done|lia|lia].
Qed.

(** The second piece of a split: the text between the first occurrence of the
    separator and the next one, or the end. *)
Lemma split_fuel_head sep a :
  sep ≠ EmptyString →
  PyStr.split_fuel (String.length a) sep a !! 0 =
  Some match PyStr.partition sep a with
       | Some (mid, _) => mid
       | None => a
       end.
Proof.
  intros Hsep. destruct a as [|c a].
  - by rewrite partition_empty.
  - change (String.length (String c a)) with (S (String.length a)).
    cbn [PyStr.split_fuel].
    by destruct (PyStr.partition sep (String c a)) as [[??]|].
Qed.

(** The pieces Python returns for a few texts. *)
Example split_marker :
  PyStr.split "list_" "/jobs/list_abc" = Ok ["/jobs/"; "abc"].
Proof. reflexivity. Qed.

Example split_overlap : PyStr.split "aa" "aaa" = Ok [EmptyString; "a"].
Proof. reflexivity. Qed.

Example split_absent : PyStr.split "x" "abc" = Ok ["abc"].
Proof. reflexivity. Qed.

Example split_only_marker :
  PyStr.split "list_" "list_" = Ok [EmptyString; EmptyString].
Proof. reflexivity. Qed.

Example strip_both_ends : PyStr.strip ("  Data Labeler " +:+ nl) = "Data Labeler".
Proof. reflexivity. Qed.

Lemma job_id_of_absent href :
  PyStr.partition "list_" href = None → job_id_of href = Ok href.
Proof. intros E. unfold job_id_of, PyStr.contains. by rewrite E. Qed.

Lemma job_id_of_present href before after :
  PyStr.partition "list_" href = Some (before, after) →
  job_id_of href = Ok match PyStr.partition "list_" after with
                      | Some (mid, _) => mid
                      | None => after
                      end.
Proof.
  intros E. unfold job_id_of, PyStr.contains. rewrite E.
  rewrite split_unfold, E by done. unfold PyStr.index.
  change ((before :: ?l) !! 1) with (l !! 0).
  by rewrite split_fuel_head.
Qed.

Lemma job_id_of_total href : ∃ job_id, job_id_of href = Ok job_id.
Proof.
  destruct (PyStr.partition "list_" href) as [[b a]|] eqn:E.
  - eexists. by eapply job_id_of_present.
  - eexists. by apply job_id_of_absent.
Qed.

(** C8, as the code has it.  The id is the second piece of
    [href.split('list_')]: the text that follows the first occurrence of the
    marker, up to the next occurrence of the marker if there is one.  A link
    target without the marker is its own id, and no link target is
    rejected. *)
Theorem job_id_of_spec (href : string) :
  (∃ job_id, job_id_of href = Ok job_id) ∧
  (¬ occurs "list_" href → job_id_of href = Ok href) ∧
  (∀ before after, first_cut "list_" href before after →
     (¬ occurs "list_" after → job_id_of href = Ok after) ∧
     (∀ mid tail, first_cut "list_" after mid tail →
        job_id_of href = Ok mid)).
Proof.
  split; [apply job_id_of_total|split].
  - intros Hno. apply job_id_of_absent.
    destruct (PyStr.partition "list_" href) as [[b a]|] eqn:E; [|done].
    destruct Hno. exists b, a. by apply partition_sound.
  - intros before after Hcut%partition_first_cut.
    rewrite (job_id_of_present _ _ _ Hcut). split.
    + intros Hno.
      destruct (PyStr.partition "list_" after) as [[b a]|] eqn:E; [|done].
      destruct Hno. exists b, a. by apply partition_sound.
    + by intros mid tail ->%partition_first_cut.
Qed.

(** The theorem at a link target of the usual shape. *)
Lemma job_id_of_spec_witness :
  first_cut "list_" "/jobs/list_abc123" "/jobs/" "abc123" ∧
  ¬ occurs "list_" "abc123" ∧
  job_id_of "/jobs/list_abc123" = Ok "abc123".
Proof.
  assert (first_cut "list_" "/jobs/list_abc123" "/jobs/" "abc123") as Hcut
    by (apply partition_first_cut; reflexivity).
  assert (¬ occurs "list_" "abc123") as Hno
    by (rewrite <-contains_occurs; vm_compute; discriminate).
  split; [exact Hcut|]. split; [exact Hno|].
  exact (proj1 (proj2 (proj2 (job_id_of_spec "/jobs/list_abc123"))
                  "/jobs/" "abc123" Hcut) Hno).
Defined.

(** C8, as the claim has it, fails when the marker occurs twice: the id is
    not the text that follows the marker. *)
Lemma job_id_of_second_marker :
  first_cut "list_" "/jobs/list_a_list_b" "/jobs/" "a_list_b" ∧
  job_id_of "/jobs/list_a_list_b" = Ok "a_" ∧
  job_id_of "/jobs/list_a_list_b" ≠ Ok "a_list_b".
Proof.
  split; [apply partition_first_cut; reflexivity|].
  split; [reflexivity|discriminate].
Qed.

(** ** Frame rules

    [preserves R m]: whatever way [m] ends, the state it leaves is related
    by [R] to the state it started in.  With [R := same f] this says that
    [m] does not touch the component [f] of the state. *)

Lemma preserves_ret {A} (R : relation state) `{!Reflexive R} (a : A) :
  preserves R (ret a).
Proof. by intros st r st' [= <- <-]. Qed.

Lemma preserves_raise {A} (R : relation state) `{!Reflexive R} e :
  preserves R (@raise A e).
Proof. by intros st r st' [= <- <-]. Qed.

Lemma preserves_sys_exit {A} (R : relation state) `{!Reflexive R} c :
  preserves R (@sys_exit A c).
Proof. by intros st r st' [= <- <-]. Qed.

Lemma preserves_lift {A} (R : relation state) `{!Reflexive R} (o : outcome A) :
  preserves R (lift o).
Proof. by intros st r st' [= <- <-]. Qed.

Lemma preserves_bind {A B} (R : relation state) `{!Transitive R}
    (m : M A) (k : A → M B) :
  preserves R m → (∀ a, preserves R (k a)) → preserves R (bind m k).
Proof.
  intros Hm Hk st r st'. unfold bind.
  destruct (m st) as [[a|e|c] st1] eqn:E; specialize (Hm _ _ _ E).
  - intros Hk'%Hk. by etrans.
  - by intros [= <- <-].
  - by intros [= <- <-].
Qed.

Lemma preserves_try_except {A} (R : relation state) `{!Transitive R}
    (body : M A) (handler : exn → M A) :
  preserves R body → (∀ e, preserves R (handler e)) →
  preserves R (try_except body handler).
Proof.
  intros Hb Hh st r st'. unfold try_except.
  destruct (body st) as [[a|e|c] st1] eqn:E; specialize (Hb _ _ _ E).
  - by intros [= <- <-].
  - intros Hh'%Hh. by etrans.
  - by intros [= <- <-].
Qed.

Lemma preserves_try_finally {A} (R : relation state) `{!Transitive R}
    (body : M A) (cleanup : M unit) :
  preserves R body → preserves R cleanup →
  preserves R (try_finally body cleanup).
Proof.
  intros Hb Hc st r st'. unfold try_finally.
  destruct (body st) as [r1 st1] eqn:E. specialize (Hb _ _ _ E).
  destruct (cleanup st1) as [[[]|e|c] st2] eqn:E'; specialize (Hc _ _ _ E');
    intros [= <- <-]; by etrans.
Qed.

Global Instance same_preorder {B} (f : state → B) : PreOrder (same f).
Proof. split; [by intros ?|]. intros ??? H1 H2. unfold same in *. congruence. Qed.

Global Instance quiet_preorder : PreOrder quiet.
Proof.
  split; [by intros ?|]. intros ??? [??] [??]. unfold quiet in *.
  split; congruence.
Qed.

Global Instance grows_preorder : PreOrder grows.
Proof.
  split.
  - intros st. exists []. by rewrite (right_id_L [] (++)).
  - intros st1 st2 st3 [r1 H1] [r2 H2]. exists (r1 ++ r2).
    by rewrite H2, H1, (assoc_L (++)).
Qed.

Lemma preserves_print R line :
  (∀ st o, R st (set_stdout o st)) → preserves R (print line).
Proof. intros HR st r st' [= <- <-]. apply HR. Qed.

Lemma preserves_datetime_now R w :
  (∀ st n, R st (set_ticks n st)) → preserves R (datetime_now w).
Proof. intros HR st r st' [= <- <-]. apply HR. Qed.

Lemma preserves_browser R :
  (∀ st b, R st (set_browser_running b st)) →
  preserves R browser_started ∧ preserves R browser_close.
Proof. intros HR. split; intros st r st' [= <- <-]; apply HR. Qed.

Lemma preserves_smtp R ev :
  (∀ st l, R st (set_smtp_log l st)) → preserves R (smtp ev).
Proof. intros HR st r st' [= <- <-]. apply HR. Qed.

Lemma preserves_path_exists (R : relation state) `{!Reflexive R} name :
  preserves R (path_exists name).
Proof. by intros st r st' [= <- <-]. Qed.

Lemma preserves_read_file (R : relation state) `{!Reflexive R} name :
  preserves R (read_file name).
Proof.
  intros st r st'. unfold read_file.
  by destruct (files st !! name); intros [= <- <-].
Qed.

Create HintDb frame discriminated.

Ltac frame_side :=
  intros; first [reflexivity | split; reflexivity].

(** One syntax-directed step through the text of a computation. *)
Ltac frame_step :=
  lazymatch goal with
  | |- preserves _ (bind _ _) => refine (preserves_bind _ _ _ _ _); [|intros ?]
  | |- preserves _ (try_except _ _) =>
      refine (preserves_try_except _ _ _ _ _); [|intros ?]
  | |- preserves _ (try_finally _ _) =>
      refine (preserves_try_finally _ _ _ _ _)
  | |- preserves _ (ret _) => refine (preserves_ret _ _)
  | |- preserves _ (raise _) => refine (preserves_raise _ _)
  | |- preserves _ (sys_exit _) => refine (preserves_sys_exit _ _)
  | |- preserves _ (lift _) => refine (preserves_lift _ _)
  | |- preserves _ (print _) => apply preserves_print; frame_side
  | |- preserves _ (datetime_now _) => apply preserves_datetime_now; frame_side
  | |- preserves _ (smtp _) => apply preserves_smtp; frame_side
  | |- preserves _ browser_started => apply preserves_browser; frame_side
  | |- preserves _ browser_close => apply preserves_browser; frame_side
  | |- preserves _ (path_exists _) => refine (preserves_path_exists _ _)
  | |- preserves _ (read_file _) => refine (preserves_read_file _ _)
  | |- preserves _ (match ?x with _ => _ end) => destruct x
  | |- preserves _ _ => solve [eauto with frame]
  end.

Ltac frame := repeat frame_step.

Section MonitorFacts.
Context `{JsonCodec}.

Lemma json_load_quiet name : preserves quiet (json_load name).
Proof. unfold json_load. frame. Qed.
#[local] Hint Resolve json_load_quiet : frame.

Lemma load_config_quiet : preserves quiet load_config.
Proof. unfold load_config. frame. Qed.

Lemma load_seen_jobs_quiet : preserves quiet load_seen_jobs.
Proof. unfold load_seen_jobs. frame. Qed.

Lemma extract_quiet w el : preserves quiet (extract w el).
Proof. unfold extract. frame. Qed.
#[local] Hint Resolve extract_quiet : frame.

Lemma extract_all_quiet w els jobs : preserves quiet (extract_all w els jobs).
Proof.
  revert jobs. induction els as [|el els IH]; intros jobs; simpl; frame.
Qed.
#[local] Hint Resolve extract_all_quiet : frame.

Lemma scrape_jobs_quiet w : preserves quiet (scrape_jobs w).
Proof. unfold scrape_jobs. frame. Qed.

Lemma print_jobs_quiet jobs : preserves quiet (print_jobs jobs).
Proof. induction jobs as [|job jobs IH]; simpl; frame. Qed.

Lemma smtp_session_files w config recipient password msg :
  preserves (same files) (smtp_session w config recipient password msg).
Proof. unfold smtp_session. frame. Qed.
#[local] Hint Resolve smtp_session_files : frame.

Lemma send_email_files w config new_jobs :
  preserves (same files) (send_email w config new_jobs).
Proof. unfold send_email. frame. Qed.

(** Nothing that was printed is taken back. *)
Lemma preserves_print_grows line : preserves grows (print line).
Proof. intros st r st' [= <- <-]. by eexists. Qed.

Lemma preserves_smtp_grows ev : preserves grows (smtp ev).
Proof. intros st r st' [= <- <-]. exists []. simpl. by rewrite (right_id_L [] (++)). Qed.

Ltac grow :=
  repeat first [frame_step | apply preserves_print_grows
               | apply preserves_smtp_grows].

Lemma smtp_session_grows w config recipient password msg :
  preserves grows (smtp_session w config recipient password msg).
Proof. unfold smtp_session. grow. Qed.
#[local] Hint Resolve smtp_session_grows : frame.

Lemma send_email_grows w config new_jobs :
  preserves grows (send_email w config new_jobs).
Proof. unfold send_email. grow. Qed.

(** ** What each stage returns *)

Lemma json_load_run name st :
  json_load name st =
  match files st !! name with
  | None => (Raised (Exception "FileNotFoundError" name), st)
  | Some text =>
      match json_loads text with
      | Some v => (Ok v, st)
      | None => (Raised (Exception "JSONDecodeError" name), st)
      end
  end.
Proof.
  unfold json_load, bind, read_file.
  destruct (files st !! name) as [text|]; [|done]. by destruct (json_loads text).
Qed.

Lemma load_config_cases st :
  (files st !! CONFIG_FILE = None ∧ ∃ st', load_config st = (Exited 1, st')) ∨
  (∃ text, files st !! CONFIG_FILE = Some text ∧ json_loads text = None ∧
           ∃ e, load_config st = (Raised e, st)) ∨
  (∃ text v, files st !! CONFIG_FILE = Some text ∧ json_loads text = Some v ∧
             load_config st = (Ok v, st)).
Proof.
  unfold load_config, bind, path_exists.
  destruct (files st !! CONFIG_FILE) as [text|] eqn:E.
  - rewrite bool_decide_true by eauto. simpl. rewrite json_load_run, E.
    destruct (json_loads text) as [v|] eqn:E'; right; [right|left]; eauto 10.
  - rewrite bool_decide_false by (by intros [??]). simpl. left. eauto.
Qed.

Lemma load_seen_jobs_cases st :
  (files st !! JOBS_FILE = None ∧ load_seen_jobs st = (Ok (JList []), st)) ∨
  (∃ text, files st !! JOBS_FILE = Some text ∧ json_loads text = None ∧
           ∃ e, load_seen_jobs st = (Raised e, st)) ∨
  (∃ text v, files st !! JOBS_FILE = Some text ∧ json_loads text = Some v ∧
             load_seen_jobs st = (Ok v, st)).
Proof.
  unfold load_seen_jobs, bind, path_exists.
  destruct (files st !! JOBS_FILE) as [text|] eqn:E.
  - rewrite bool_decide_true by eauto. simpl. rewrite json_load_run, E.
    destruct (json_loads text) as [v|] eqn:E'; right; [right|left]; eauto 10.
  - rewrite bool_decide_false by (by intros [??]). simpl. by left.
Qed.

(** An element yields a record or raises; it never ends the process. *)
Lemma extract_returns w el st :
  (∃ job st', extract w el st = (Ok job, st')) ∨
  (∃ e st', extract w el st = (Raised e, st')).
Proof.
  destruct el as [a|e]; [|right; by eexists _, _].
  left. unfold extract, bind, lift.
  destruct (job_id_of_total (href a)) as [job_id ->].
  by eexists _, _.
Qed.

Lemma extract_all_returns w els jobs st :
  ∃ jobs' st', extract_all w els jobs st = (Ok jobs', st').
Proof.
  revert jobs st. induction els as [|el els IH]; intros jobs st; simpl.
  - by eexists _, _.
  - unfold bind at 1. unfold try_except, bind at 1.
    destruct (extract_returns w el st) as [(job & st' & ->)|(e & st' & ->)];
      simpl; apply IH.
Qed.

(** [scrape_jobs] raises only when the browser does not launch.  Otherwise it
    returns a list, which is empty after a page-level failure, and the
    browser is closed. *)
Lemma scrape_jobs_cases w st :
  (∃ e st', site w = LaunchError e ∧ scrape_jobs w st = (Raised e, st')) ∨
  (∃ p jobs st', site w = Launched p ∧ scrape_jobs w st = (Ok jobs, st') ∧
                 browser_running st' = false ∧
                 (∀ e, p = PageError e → jobs = [])).
Proof.
  unfold scrape_jobs, bind, datetime_now, print.
  destruct (site w) as [e|p]; [left; by eexists _, _|right].
  unfold browser_started, try_finally, try_except, browser_close.
  destruct p as [e|els].
  - unfold raise, bind, print. simpl. eexists _, _, _. by repeat split.
  - match goal with |- context [extract_all w els [] ?s] =>
      destruct (extract_all_returns w els [] s) as (jobs & st' & ->)
    end.
    simpl. eexists _, _, _. repeat split; done.
Qed.

Lemma print_jobs_returns jobs st :
  ∃ st', print_jobs jobs st = (Ok tt, st').
Proof.
  revert st. induction jobs as [|job jobs IH]; intros st; simpl.
  - by eexists.
  - unfold bind, print. apply IH.
Qed.

Lemma print_jobs_run jobs st :
  print_jobs jobs st = (Ok tt, set_stdout (stdout st ++ (job_line <$> jobs)) st).
Proof.
  revert st. induction jobs as [|job jobs IH]; intros st; simpl.
  - rewrite (right_id_L [] (++)). by destruct st.
  - unfold bind, print. rewrite IH. simpl.
    by rewrite <-(assoc_L (++)).
Qed.

(** ** Notification *)

Lemma py_getitem_Ok config key r :
  py_getitem config key = Ok r ↔ ∃ d, config = JDict d ∧ d !! key = Some r.
Proof.
  destruct config as [l|d]; simpl.
  - split; [done|]. by intros (? & ? & ?).
  - destruct (d !! key) as [x|] eqn:E; split.
    + intros [= ->]. eauto.
    + intros (? & [= <-] & ?). congruence.
    + done.
    + intros (? & [= <-] & ?). congruence.
Qed.

(** Without a recipient in the configuration [send_email] raises before it
    does anything else. *)
Lemma send_email_raises w config new_jobs st e :
  py_getitem config "email" = Raised e →
  send_email w config new_jobs st = (Raised e, st).
Proof. intros E. unfold send_email, bind, lift. by rewrite E. Qed.

Lemma smtp_session_returns w d recipient password msg st :
  ∃ r st', smtp_session w (JDict d) recipient password msg st = (r, st') ∧
           ∀ c, r ≠ Exited c.
Proof.
  unfold smtp_session, try_finally, bind, smtp, raise, lift.
  destruct (mail_relay w); simpl; by eexists _, _.
Qed.

(** With a recipient, [send_email] returns normally whatever the relay
    does. *)
Lemma send_email_returns w d new_jobs st r :
  d !! "email" = Some r →
  ∃ st', send_email w (JDict d) new_jobs st = (Ok tt, st').
Proof.
  intros E. unfold send_email, bind at 1. unfold lift at 1. simpl. rewrite E.
  unfold try_except, bind at 1. unfold lift at 1. simpl.
  destruct (falsy _); [by eexists|].
  unfold bind at 1.
  destruct (smtp_session_returns w d r
              (default EmptyString (environ w !! "SMTP_PASSWORD"))
              {| msg_subject := subject_of new_jobs;
                 msg_from := default r (d !! "smtp_from");
                 msg_to := r; msg_html := html_body_of new_jobs |} st)
    as ([[]|e|c] & st' & -> & Hne); [by eexists..|by destruct (Hne c)].
Qed.

(** Without the password nothing is sent: one warning is printed. *)
Lemma send_email_skips w d new_jobs st r :
  d !! "email" = Some r →
  falsy (environ w !! "SMTP_PASSWORD") = true →
  send_email w (JDict d) new_jobs st =
  (Ok tt, set_stdout
            (stdout st ++ ["Warning: SMTP_PASSWORD not set. Skipping email."]) st).
Proof.
  intros E Hpw. unfold send_email, bind at 1. unfold lift at 1. simpl. rewrite E.
  unfold try_except, bind at 1. unfold lift at 1. simpl. by rewrite Hpw.
Qed.

(** The traffic with the relay when the password is set. *)
Lemma send_email_traffic w d new_jobs st r password :
  d !! "email" = Some r →
  environ w !! "SMTP_PASSWORD" = Some password →
  password ≠ EmptyString →
  let user := default r (d !! "smtp_user") in
  let msg := {| msg_subject := subject_of new_jobs;
                msg_from := default r (d !! "smtp_from");
                msg_to := r; msg_html := html_body_of new_jobs |} in
  smtp_log (send_email w (JDict d) new_jobs st).2 =
  smtp_log st ++
  Connect "smtp.gmail.com" 465 ::
  match mail_relay w with
  | Accepts => [Login user password; Send msg; Quit]
  | RefusesConnection _ => []
  | RejectsLogin _ => [Login user password; Quit]
  | RejectsMessage _ => [Login user password; Send msg; Quit]
  end.
Proof.
  intros E Hpw Hne. unfold send_email, bind at 1. unfold lift at 1. simpl.
  rewrite E. unfold try_except, bind at 1. unfold lift at 1. simpl.
  rewrite Hpw. destruct password as [|c password]; [done|]. simpl.
  unfold bind at 1.
  unfold smtp_session, try_finally, bind, smtp, raise, print, lift.
  destruct (mail_relay w); simpl; by rewrite <-?(assoc_L (++)).
Qed.

End MonitorFacts.

(** ** The reference codec reads back what it writes *)
Module RefJsonFacts.
Import RefJson.

Lemma lex_esc_char cur c rest :
  lex (Str cur) (esc_char c +:+ rest) = lex (Str (snoc cur c)) rest.
Proof. by destruct c as [[] [] [] [] [] [] [] []]. Qed.

Lemma snoc_app cur c s : snoc cur c +:+ s = cur +:+ String c s.
Proof. unfold snoc. by rewrite str_app_assoc. Qed.

Lemma lex_esc_string cur s rest :
  lex (Str cur) (esc_string s +:+ dq +:+ rest) =
  cons (Text (cur +:+ s)) <$> lex Out rest.
Proof.
  revert cur. induction s as [|c s IH]; intros cur; simpl.
  - by rewrite str_app_nil_r.
  - by rewrite str_app_assoc, lex_esc_char, IH, snoc_app.
Qed.

Lemma lex_quoted s rest :
  lex Out (quoted s +:+ rest) = cons (Text s) <$> lex Out rest.
Proof.
  unfold quoted. rewrite !str_app_assoc.
  change (lex Out (dq +:+ ?t)) with (lex (Str EmptyString) t).
  by rewrite lex_esc_string.
Qed.

Lemma lex_dump_item s rest :
  lex Out (dump_item s +:+ rest) = app [Text s] <$> lex Out rest.
Proof.
  unfold dump_item. rewrite !str_app_assoc.
  change (lex Out (nl +:+ "  " +:+ ?t)) with (lex Out t).
  by rewrite lex_quoted.
Qed.

Lemma lex_dump_field kv rest :
  lex Out (dump_field kv +:+ rest) =
  app [Text kv.1; Colon; Text kv.2] <$> lex Out rest.
Proof.
  unfold dump_field. rewrite !str_app_assoc.
  change (lex Out (nl +:+ "  " +:+ ?t)) with (lex Out t).
  rewrite lex_quoted.
  change (lex Out (": " +:+ ?t)) with (cons Colon <$> lex Out t).
  rewrite lex_quoted. by destruct (lex Out rest).
Qed.

Lemma lex_dump_seq {A} (item : A → string) (toks : A → list token) x xs rest :
  (∀ a rest, lex Out (item a +:+ rest) = app (toks a) <$> lex Out rest) →
  lex Out (dump_seq item x xs +:+ rest) =
  app (toks x ++ xs ≫= λ y, Comma :: toks y) <$> lex Out rest.
Proof.
  intros Hitem. revert x. induction xs as [|y ys IH]; intros x; simpl.
  - rewrite Hitem. by rewrite (right_id_L [] (++)).
  - rewrite !str_app_assoc, Hitem.
    change (lex Out ("," +:+ ?t)) with (cons Comma <$> lex Out t).
    rewrite IH. destruct (lex Out rest) as [ts|]; [|done]. simpl.
    f_equal. rewrite <-!List.app_assoc. simpl. by rewrite <-?List.app_assoc.
Qed.

Lemma list_tail_items xs :
  list_tail ((xs ≫= λ y, [Comma; Text y]) ++ [RBracket]) = Some xs.
Proof. induction xs as [|x xs IH]; [done|]. csimpl. by rewrite IH. Qed.

Lemma dict_tail_fields kvs :
  dict_tail ((kvs ≫= λ kv, [Comma; Text kv.1; Colon; Text kv.2]) ++ [RBrace])
  = Some kvs.
Proof.
  induction kvs as [|[k v] kvs IH]; [done|]. csimpl. by rewrite IH.
Qed.

Lemma dict_of_map_to_list (d : gmap string string) :
  dict_of (map_to_list d) = d.
Proof.
  unfold dict_of. rewrite <-(list_to_map_to_list d) at 2.
  apply list_to_map_proper.
  - rewrite fmap_reverse, reverse_Permutation. apply NoDup_fst_map_to_list.
  - apply reverse_Permutation.
Qed.

Theorem loads_dumps v : loads (dumps v) = Some v.
Proof.
  unfold loads. destruct v as [[|x xs]|d]; simpl.
  - done.
  - change (lex Out ("[" +:+ ?t)) with (cons LBracket <$> lex Out t).
    rewrite ?str_app_nil_l.
    rewrite (lex_dump_seq dump_item (λ s, [Text s])) by apply lex_dump_item.
    simpl. by rewrite list_tail_items.
  - destruct (map_to_list d) as [|[k v] kvs] eqn:E.
    + by apply map_to_list_empty_iff in E as ->.
    + change (lex Out ("{" +:+ ?t)) with (cons LBrace <$> lex Out t).
      rewrite ?str_app_nil_l.
      rewrite (lex_dump_seq dump_field (λ kv, [Text kv.1; Colon; Text kv.2]))
        by apply lex_dump_field.
      simpl. rewrite dict_tail_fields. simpl.
      by rewrite <-E, dict_of_map_to_list.
Qed.

End RefJsonFacts.

(** The text written for a list of two ids, and a text with other spacing. *)
Example dumps_two_ids :
  RefJson.dumps (JList ["A"; "B"]) =
  unlines ["["; "  " +:+ dq +:+ "A" +:+ dq +:+ ",";
           "  " +:+ dq +:+ "B" +:+ dq; "]"].
Proof. reflexivity. Qed.

Example loads_one_line :
  RefJson.loads ("[" +:+ dq +:+ "A" +:+ dq +:+ ", " +:+ dq +:+ "B" +:+ dq +:+ "]")
  = Some (JList ["A"; "B"]).
Proof. reflexivity. Qed.

Example loads_truncated :
  RefJson.loads ("[" +:+ dq +:+ "A" +:+ dq +:+ ",") = None.
Proof. reflexivity. Qed.

Definition ref_codec : JsonCodec := {|
  json_dumps := RefJson.dumps;
  json_loads := RefJson.loads;
  json_loads_dumps := RefJsonFacts.loads_dumps
|}.

(** ** The diff *)

Lemma new_jobs_of_nil seen_ids : new_jobs_of seen_ids [] = [].
Proof. done. Qed.

Lemma new_jobs_of_cons seen_ids job current :
  new_jobs_of seen_ids (job :: current) =
  if decide (id job ∈ seen_ids) then new_jobs_of seen_ids current
  else job :: new_jobs_of seen_ids current.
Proof.
  unfold new_jobs_of. rewrite filter_cons.
  destruct (decide (id job ∈ seen_ids)), (decide (id job ∉ seen_ids)); done.
Qed.

Lemma new_jobs_of_kept seen_ids current :
  kept_in_order seen_ids current (new_jobs_of seen_ids current).
Proof.
  induction current as [|job current IH]; [constructor|].
  rewrite new_jobs_of_cons. destruct (decide _); by constructor.
Qed.

Lemma kept_in_order_unique seen_ids current new :
  kept_in_order seen_ids current new → new = new_jobs_of seen_ids current.
Proof.
  induction 1 as [|job current new Hin _ IH|job current new Hin _ IH];
    rewrite ?new_jobs_of_cons; [done|..]; destruct (decide _); congruence.
Qed.

Lemma elem_of_new_jobs_of seen_ids current job :
  job ∈ new_jobs_of seen_ids current ↔ job ∈ current ∧ id job ∉ seen_ids.
Proof. unfold new_jobs_of. rewrite list_elem_of_filter. tauto. Qed.

Lemma new_jobs_of_sublist seen_ids current :
  new_jobs_of seen_ids current `sublist_of` current.
Proof. apply sublist_filter. Qed.

Lemma new_jobs_of_empty seen_ids current :
  new_jobs_of seen_ids current = [] ↔ ∀ job, job ∈ current → id job ∈ seen_ids.
Proof.
  split.
  - intros Hnil job Hin. destruct (decide (id job ∈ seen_ids)); [done|].
    assert (job ∈ new_jobs_of seen_ids current) as Hnew
      by by apply elem_of_new_jobs_of.
    rewrite Hnil in Hnew. by apply not_elem_of_nil in Hnew.
  - intros Hall. destruct (new_jobs_of seen_ids current) as [|job new] eqn:E;
      [done|].
    assert (job ∈ new_jobs_of seen_ids current) as Hnew
      by (rewrite E; left).
    apply elem_of_new_jobs_of in Hnew as [Hin Hnot]. destruct Hnot. by apply Hall.
Qed.

(** The comprehension of [main] on its own: for every set of ids and every
    scraped list it returns the elements of the list whose id is not in the
    set, each as often as it occurs there and in the same order. *)
Theorem new_jobs_of_spec (seen_ids : gset string) (current : list JobRecord) :
  (∀ new, kept_in_order seen_ids current new ↔
          new = new_jobs_of seen_ids current) ∧
  new_jobs_of seen_ids current `sublist_of` current ∧
  (∀ job, job ∈ new_jobs_of seen_ids current ↔
          job ∈ current ∧ id job ∉ seen_ids).
Proof.
  split; [|split].
  - intros new. split; [apply kept_in_order_unique|].
    intros ->. apply new_jobs_of_kept.
  - apply new_jobs_of_sublist.
  - apply elem_of_new_jobs_of.
Qed.

(** ** Runs of [main] *)
Section Runs.
Context `{JsonCodec}.

Lemma load_config_Ok st config st' :
  load_config st = (Ok config, st') →
  st' = st ∧ ∃ text, files st !! CONFIG_FILE = Some text ∧
                     json_loads text = Some config.
Proof.
  intros Hc.
  destruct (load_config_cases st)
    as [(_ & ? & E)|[(? & _ & _ & ? & E)|(text & v & ? & ? & E)]];
    rewrite E in Hc; simplify_eq; eauto.
Qed.

Lemma load_seen_jobs_Ok st seen st' :
  load_seen_jobs st = (Ok seen, st') → st' = st.
Proof.
  intros Hs.
  destruct (load_seen_jobs_cases st)
    as [(_ & E)|[(? & _ & _ & ? & E)|(text & v & _ & _ & E)]];
    rewrite E in Hs; by simplify_eq.
Qed.

(** What the loaders return depends on the files only. *)
Lemma load_seen_jobs_files st st' seen :
  files st' = files st →
  load_seen_jobs st = (Ok seen, st) → load_seen_jobs st' = (Ok seen, st').
Proof.
  intros Hf Hs.
  destruct (load_seen_jobs_cases st)
    as [(E1 & E)|[(? & _ & _ & ? & E)|(text & v & E1 & E2 & E)]];
    rewrite E in Hs; simplify_eq;
    destruct (load_seen_jobs_cases st')
      as [(E1' & E')|[(? & E1' & E2' & ? & E')|(text' & v' & E1' & E2' & E')]];
    rewrite Hf in E1'; rewrite E'; congruence.
Qed.

Lemma load_seen_jobs_written st ids :
  files st !! JOBS_FILE = Some (json_dumps (JList ids)) →
  load_seen_jobs st = (Ok (JList ids), st).
Proof.
  intros Hf.
  destruct (load_seen_jobs_cases st)
    as [(E1 & E)|[(? & E1 & E2 & ? & E)|(text & v & E1 & E2 & E)]];
    rewrite Hf in E1; simplify_eq; rewrite json_loads_dumps in E2;
    by simplify_eq.
Qed.

(** The guard: nothing was scraped. *)
Lemma main_no_jobs w st config seen st1 :
  load_config st = (Ok config, st) →
  load_seen_jobs st = (Ok seen, st) →
  scrape_jobs w st = (Ok [], st1) →
  main w st =
  (Ok tt, set_stdout
            (stdout st1 ++
             ["No jobs found. The page might have changed or failed to load."])
            st1).
Proof. intros Hc Hs HL. unfold main, bind. by rewrite Hc, Hs, HL. Qed.

(** Jobs were scraped and all of them are known. *)
Lemma main_no_new w st config seen L st1 :
  load_config st = (Ok config, st) →
  load_seen_jobs st = (Ok seen, st) →
  scrape_jobs w st = (Ok L, st1) →
  L ≠ [] →
  new_jobs_of (py_set seen) L = [] →
  main w st = (Ok tt, set_stdout (stdout st1 ++ ["No new jobs found."]) st1).
Proof.
  intros Hc Hs HL Hne Hnew. unfold main, bind. rewrite Hc, Hs, HL.
  destruct L as [|job L]; [done|]. by rewrite Hnew.
Qed.

(** New jobs and a recipient: the notification is attempted, then the list
    of seen ids is written. *)
Lemma main_persists w st d r seen L st1 :
  load_config st = (Ok (JDict d), st) →
  d !! "email" = Some r →
  load_seen_jobs st = (Ok seen, st) →
  scrape_jobs w st = (Ok L, st1) →
  new_jobs_of (py_set seen) L ≠ [] →
  let new := new_jobs_of (py_set seen) L in
  ∃ st2 st3,
    quiet st st2 ∧
    send_email w (JDict d) new st2 = (Ok tt, st3) ∧
    main w st =
    (Ok tt, set_files
              (<[JOBS_FILE :=
                   json_dumps (JList (elements (py_set seen) ++ (id <$> new)))]>
                 (files st))
              st3).
Proof.
  intros Hc Hr Hs HL Hnew new. unfold main, bind. rewrite Hc, Hs, HL.
  destruct L as [|job L]; [done|]. fold new.
  destruct new as [|job' new'] eqn:E; [done|].
  unfold print at 1.
  match goal with |- context [print_jobs ?js ?s] =>
    destruct (print_jobs_returns js s) as [st2 Hp]
  end.
  rewrite Hp.
  destruct (send_email_returns w d (job' :: new') st2 r Hr) as [st3 He].
  rewrite He. exists st2, st3. split; [|split; [done|]].
  - apply scrape_jobs_quiet in HL as [Hf Hm].
    apply print_jobs_quiet in Hp as [Hf' Hm']. simpl in *.
    split; congruence.
  - unfold save_seen_jobs, write_file. do 3 f_equal.
    apply send_email_files in He. apply scrape_jobs_quiet in HL as [Hf Hm].
    apply print_jobs_quiet in Hp as [Hf' Hm']. unfold same in He.
    simpl in *. congruence.
Qed.

(** New jobs but no recipient in the configuration: [send_email] raises and
    nothing is written. *)
Lemma main_no_recipient w st config e seen L st1 :
  load_config st = (Ok config, st) →
  py_getitem config "email" = Raised e →
  load_seen_jobs st = (Ok seen, st) →
  scrape_jobs w st = (Ok L, st1) →
  new_jobs_of (py_set seen) L ≠ [] →
  ∃ st2, quiet st st2 ∧ main w st = (Raised e, st2).
Proof.
  intros Hc Hr Hs HL Hnew. unfold main, bind. rewrite Hc, Hs, HL.
  destruct L as [|job L]; [done|].
  destruct (new_jobs_of _ _) as [|job' new'] eqn:E; [done|].
  unfold print at 1.
  match goal with |- context [print_jobs ?js ?s] =>
    destruct (print_jobs_returns js s) as [st2 Hp]
  end.
  rewrite Hp, (send_email_raises _ _ _ _ _ Hr). exists st2. split; [|done].
  apply scrape_jobs_quiet in HL as [Hf Hm].
  apply print_jobs_quiet in Hp as [Hf' Hm']. simpl in *. split; congruence.
Qed.

(** New jobs: the run reports them, then hands them to [send_email] and
    writes the list of seen ids. *)
Lemma main_new_run w st config seen L st1 :
  load_config st = (Ok config, st) →
  load_seen_jobs st = (Ok seen, st) →
  scrape_jobs w st = (Ok L, st1) →
  new_jobs_of (py_set seen) L ≠ [] →
  let new := new_jobs_of (py_set seen) L in
  main w st =
  (send_email w config new;;
   save_seen_jobs (elements (py_set seen) ++ (id <$> new)))
    (set_stdout (stdout st1 ++ report new) st1).
Proof.
  intros Hc Hs HL Hnew new. unfold main. unfold bind at 1. rewrite Hc.
  unfold bind at 1. rewrite Hs. unfold bind at 1. rewrite HL.
  destruct L as [|job L]; [done|]. fold new.
  destruct new as [|job' new'] eqn:E; [done|].
  unfold bind at 1, print at 1. unfold bind at 1. rewrite print_jobs_run.
  cbn [report stdout set_stdout]. by rewrite <-(assoc_L (++)).
Qed.

(** C1.  Let [S] be the set of the seen ids a run loaded and [L] the
    non-empty list it scraped.  The list of new jobs that the run works with
    holds exactly the elements of [L] whose id is not in [S], each as often
    as it occurs in [L] and in the order of [L].  It is this list that the
    run reports on standard output right after the scraper's lines, that it
    hands to [send_email], and whose ids it appends to the elements of [S]
    when it rewrites the file. *)
Theorem main_new_jobs w st config seen (S : gset string) L st1 :
  load_config st = (Ok config, st) →
  load_seen_jobs st = (Ok seen, st) →
  (∀ x, x ∈ S ↔ member x seen) →
  scrape_jobs w st = (Ok L, st1) →
  L ≠ [] →
  ∃ new,
    kept_in_order S L new ∧
    new `sublist_of` L ∧
    (∀ job, job ∈ new ↔ job ∈ L ∧ id job ∉ S) ∧
    main w st =
      match new with
      | [] => (Ok tt, set_stdout (stdout st1 ++ report new) st1)
      | _ :: _ =>
          (send_email w config new;;
           save_seen_jobs (elements S ++ (id <$> new)))
            (set_stdout (stdout st1 ++ report new) st1)
      end ∧
    (∃ rest, stdout (main w st).2 = stdout st1 ++ report new ++ rest) ∧
    (∀ d r, config = JDict d → d !! "email" = Some r → new ≠ [] →
       (main w st).1 = Ok tt ∧
       files (main w st).2 =
         <[JOBS_FILE := json_dumps (JList (elements S ++ (id <$> new)))]>
           (files st)).
Proof.
  intros Hc Hs HS HL Hne.
  assert (S = py_set seen) as ->.
  { apply set_eq. intros x. rewrite HS. destruct seen as [items|fields]; simpl.
    - by rewrite elem_of_list_to_set.
    - by rewrite elem_of_dom. }
  exists (new_jobs_of (py_set seen) L).
  split; [apply new_jobs_of_kept|]. split; [apply new_jobs_of_sublist|].
  split; [intros job; apply elem_of_new_jobs_of|].
  destruct (decide (new_jobs_of (py_set seen) L = [])) as [Hnew|Hnew].
  - rewrite Hnew, (main_no_new _ _ _ _ _ _ Hc Hs HL Hne Hnew). simpl.
    split; [done|]. split; [by exists []|]. by intros d r _ _ ?.
  - pose proof (main_new_run _ _ _ _ _ _ Hc Hs HL Hnew) as Hmain.
    cbv zeta in Hmain.
    destruct (new_jobs_of (py_set seen) L) as [|job new] eqn:E; [done|].
    split; [exact Hmain|]. split.
    + rewrite Hmain. unfold bind.
      destruct (send_email w config (job :: new) _) as [res st3] eqn:He.
      apply send_email_grows in He as [rest He]. simpl in He.
      exists rest. rewrite <-(assoc_L (++)) in He.
      by destruct res as [[]|e|c]; simpl.
    + intros d r -> Hr _.
      assert (new_jobs_of (py_set seen) L ≠ []) as Hnew' by by rewrite E.
      destruct (main_persists _ _ _ _ _ _ _ Hc Hr Hs HL Hnew')
        as (st2 & st3 & _ & _ & Hmain').
      rewrite E in Hmain'. by rewrite Hmain'.
Qed.

(** ** The seen set after a write *)

Lemma py_set_persisted (seen_ids : gset string) (ids : list string) :
  py_set (JList (elements seen_ids ++ ids)) = seen_ids ∪ list_to_set ids.
Proof. simpl. by rewrite list_to_set_app_L, list_to_set_elements_L. Qed.

Lemma new_ids_fresh seen_ids L x :
  x ∈ id <$> new_jobs_of seen_ids L → x ∉ seen_ids.
Proof.
  intros (job & -> & Hin)%list_elem_of_fmap.
  by apply elem_of_new_jobs_of in Hin as [_ ?].
Qed.

Lemma NoDup_persisted seen_ids L :
  NoDup (elements seen_ids ++ (id <$> new_jobs_of seen_ids L)) ↔
  NoDup (id <$> new_jobs_of seen_ids L).
Proof.
  rewrite NoDup_app. split; [by intros (_ & _ & ?)|].
  intros Hnew. split; [apply NoDup_elements|]. split; [|done].
  intros x Hx%elem_of_elements Hx'. by apply new_ids_fresh in Hx'.
Qed.

Lemma NoDup_new_ids seen_ids L :
  NoDup (id <$> L) → NoDup (id <$> new_jobs_of seen_ids L).
Proof.
  intros Hdup. eapply sublist_NoDup; [done|].
  apply fmap_sublist, new_jobs_of_sublist.
Qed.

Lemma size_persisted seen_ids L :
  NoDup (id <$> L) →
  size (seen_ids ∪ list_to_set (C:=gset string) (id <$> new_jobs_of seen_ids L)) =
  size seen_ids + length (new_jobs_of seen_ids L).
Proof.
  intros Hdup. rewrite size_union.
  - rewrite size_list_to_set by by apply NoDup_new_ids.
    by rewrite length_fmap.
  - intros x Hx Hx'%elem_of_list_to_set. by apply new_ids_fresh in Hx'.
Qed.

(** ** The guards of [main] *)

(** C2.  When nothing was scraped the run leaves every file as it was, the
    seen-jobs file in particular, and opens no session with the mail relay.
    If the configuration and the seen ids were loaded, it prints the
    "no jobs" line right after the scraper's output (no diff is reported) and
    returns normally. *)
Theorem main_empty_scrape w st st1 :
  scrape_jobs w st = (Ok [], st1) →
  files (main w st).2 = files st ∧
  smtp_log (main w st).2 = smtp_log st ∧
  (∀ config seen,
     load_config st = (Ok config, st) →
     load_seen_jobs st = (Ok seen, st) →
     main w st =
     (Ok tt, set_stdout
               (stdout st1 ++
                ["No jobs found. The page might have changed or failed to load."])
               st1)).
Proof.
  intros HL. pose proof (scrape_jobs_quiet _ _ _ _ HL) as [Hf Hm].
  destruct (load_config st) as [[config|e|c] st0] eqn:Hc.
  - destruct (load_config_Ok _ _ _ Hc) as [-> _].
    destruct (load_seen_jobs st) as [[seen|e|c] st0] eqn:Hs.
    + pose proof (load_seen_jobs_Ok _ _ _ Hs) as ->.
      rewrite (main_no_jobs _ _ _ _ _ Hc Hs HL). simpl.
      split; [done|]. split; [done|]. by intros ?? _ _.
    + pose proof (load_seen_jobs_quiet _ _ _ Hs) as [??].
      unfold main, bind. rewrite Hc, Hs. by repeat split.
    + pose proof (load_seen_jobs_quiet _ _ _ Hs) as [??].
      unfold main, bind. rewrite Hc, Hs. by repeat split.
  - pose proof (load_config_quiet _ _ _ Hc) as [??].
    unfold main, bind. rewrite Hc. by repeat split.
  - pose proof (load_config_quiet _ _ _ Hc) as [??].
    unfold main, bind. rewrite Hc. by repeat split.
Qed.

(** C9.  When jobs were scraped and every one of them is already in the seen
    set, the run prints "No new jobs found." and returns: no file is
    written and no session with the mail relay is opened. *)
Theorem main_nothing_new w st config seen L st1 :
  load_config st = (Ok config, st) →
  load_seen_jobs st = (Ok seen, st) →
  scrape_jobs w st = (Ok L, st1) →
  L ≠ [] →
  (∀ job, job ∈ L → id job ∈ py_set seen) →
  main w st = (Ok tt, set_stdout (stdout st1 ++ ["No new jobs found."]) st1) ∧
  files (main w st).2 = files st ∧
  smtp_log (main w st).2 = smtp_log st.
Proof.
  intros Hc Hs HL Hne Hall%new_jobs_of_empty.
  rewrite (main_no_new _ _ _ _ _ _ Hc Hs HL Hne Hall).
  by apply scrape_jobs_quiet in HL as [??].
Qed.

(** ** Notification and persistence *)

(** C3, as the code has it.  With a recipient in the configuration, at least
    one new job and no [SMTP_PASSWORD] in the environment, the run returns
    normally (exit status 0), the mail relay is never contacted, the warning
    is printed, and the seen-jobs file is rewritten so that the next load
    contains the id of every new job. *)
Theorem main_without_password w st d r seen L st1 :
  load_config st = (Ok (JDict d), st) →
  d !! "email" = Some r →
  load_seen_jobs st = (Ok seen, st) →
  scrape_jobs w st = (Ok L, st1) →
  new_jobs_of (py_set seen) L ≠ [] →
  environ w !! "SMTP_PASSWORD" = None →
  let new := new_jobs_of (py_set seen) L in
  ∃ st',
    main w st = (Ok tt, st') ∧
    exit_status (main w st).1 = 0%Z ∧
    smtp_log st' = smtp_log st ∧
    "Warning: SMTP_PASSWORD not set. Skipping email." ∈ stdout st' ∧
    files st' =
      <[JOBS_FILE := json_dumps (JList (elements (py_set seen) ++ (id <$> new)))]>
        (files st) ∧
    ∃ seen',
      load_seen_jobs st' = (Ok seen', st') ∧
      py_set seen' = py_set seen ∪ list_to_set (id <$> new) ∧
      ∀ job, job ∈ new → id job ∈ py_set seen'.
Proof.
  intros Hc Hr Hs HL Hnew Hpw new.
  destruct (main_persists _ _ _ _ _ _ _ Hc Hr Hs HL Hnew)
    as (st2 & st3 & [Hf Hm] & He & Hmain).
  rewrite (send_email_skips _ _ _ _ r Hr) in He by (by rewrite Hpw).
  simplify_eq.
  eexists. rewrite Hmain. split; [done|]. split; [done|]. simpl.
  split; [done|]. split; [apply elem_of_app; right; left|].
  split; [done|]. eexists. split; [|split].
  - apply load_seen_jobs_written. simpl. apply lookup_insert_eq.
  - apply py_set_persisted.
  - intros job Hjob. rewrite py_set_persisted.
    apply elem_of_union_r, elem_of_list_to_set. by apply list_elem_of_fmap_2.
Qed.

(** C4, as the code has it.  A run that finds new jobs, with a recipient in
    the configuration, writes the elements of the old seen set, each once and
    in the set's iteration order, followed by the id of every new job, one
    entry per new job.  The written list is free of duplicates exactly when
    the ids of the new jobs are pairwise distinct, which is the case when the
    ids of the scraped list are; either way the set built from it is the old
    set extended by the new ids. *)
Theorem main_persisted_ids w st d r seen L st1 :
  load_config st = (Ok (JDict d), st) →
  d !! "email" = Some r →
  load_seen_jobs st = (Ok seen, st) →
  scrape_jobs w st = (Ok L, st1) →
  new_jobs_of (py_set seen) L ≠ [] →
  let new := new_jobs_of (py_set seen) L in
  ∃ st' ids old,
    main w st = (Ok tt, st') ∧
    load_seen_jobs st' = (Ok (JList ids), st') ∧
    ids = old ++ (id <$> new) ∧
    NoDup old ∧ list_to_set old = py_set seen ∧
    (NoDup ids ↔ NoDup (id <$> new)) ∧
    (NoDup (id <$> L) → NoDup ids) ∧
    py_set (JList ids) = py_set seen ∪ list_to_set (id <$> new).
Proof.
  intros Hc Hr Hs HL Hnew new.
  destruct (main_persists _ _ _ _ _ _ _ Hc Hr Hs HL Hnew)
    as (st2 & st3 & _ & _ & Hmain).
  exists (main w st).2, (elements (py_set seen) ++ (id <$> new)),
    (elements (py_set seen)).
  rewrite Hmain. simpl. split; [done|].
  split; [|split; [done|split; [|split; [|split; [|split]]]]].
  - apply load_seen_jobs_written. simpl. apply lookup_insert_eq.
  - apply NoDup_elements.
  - apply list_to_set_elements_L.
  - apply NoDup_persisted.
  - intros Hdup. by apply NoDup_persisted, NoDup_new_ids.
  - apply py_set_persisted.
Qed.

(** C6, as the code has it.  After a run that returns normally on a
    non-empty scraped list without duplicate ids, the seen set that the next
    run loads has as many elements as the one this run loaded plus the number
    of new jobs. *)
Theorem main_seen_size w st config seen L st1 st' :
  load_config st = (Ok config, st) →
  load_seen_jobs st = (Ok seen, st) →
  scrape_jobs w st = (Ok L, st1) →
  L ≠ [] →
  NoDup (id <$> L) →
  main w st = (Ok tt, st') →
  ∃ seen',
    load_seen_jobs st' = (Ok seen', st') ∧
    size (py_set seen') =
    size (py_set seen) + length (new_jobs_of (py_set seen) L).
Proof.
  intros Hc Hs HL Hne Hdup Hmain.
  destruct (decide (new_jobs_of (py_set seen) L = [])) as [Hnew|Hnew].
  - rewrite (main_no_new _ _ _ _ _ _ Hc Hs HL Hne Hnew) in Hmain.
    simplify_eq. exists seen. rewrite Hnew. simpl. split; [|lia].
    apply (load_seen_jobs_files st); [|done].
    by apply scrape_jobs_quiet in HL as [??].
  - destruct (py_getitem config "email") as [r|e|c] eqn:Hr.
    + apply py_getitem_Ok in Hr as (d & -> & Hr).
      destruct (main_persists _ _ _ _ _ _ _ Hc Hr Hs HL Hnew)
        as (st2 & st3 & _ & _ & Hmain').
      rewrite Hmain' in Hmain. simplify_eq. eexists. split.
      * apply load_seen_jobs_written. simpl. apply lookup_insert_eq.
      * rewrite py_set_persisted. by apply size_persisted.
    + destruct (main_no_recipient _ _ _ _ _ _ _ Hc Hr Hs HL Hnew)
        as (st2 & _ & Hmain').
      congruence.
    + by destruct config as [?|d]; simpl in Hr; [|destruct (d !! "email")].
Qed.

(** C7.  Saving a list of ids and loading it back returns the very list, so
    exactly the saved ids are members of what is loaded; for a set saved
    through any listing of its elements, in any order, the set built from
    what is loaded is the set itself. *)
Theorem save_load_roundtrip (st : state) :
  (∀ ids, ∃ st',
     (save_seen_jobs ids;; load_seen_jobs) st = (Ok (JList ids), st') ∧
     ∀ x, x ∈ py_set (JList ids) ↔ x ∈ ids) ∧
  (∀ (seen_ids : gset string) ids,
     list_to_set ids = seen_ids →
     ∃ loaded st',
       (save_seen_jobs ids;; load_seen_jobs) st = (Ok loaded, st') ∧
       py_set loaded = seen_ids).
Proof.
  assert (∀ ids, ∃ st',
     (save_seen_jobs ids;; load_seen_jobs) st = (Ok (JList ids), st')) as Hlist.
  { intros ids. unfold bind, save_seen_jobs, write_file. eexists.
    apply load_seen_jobs_written. simpl. apply lookup_insert_eq. }
  split.
  - intros ids. destruct (Hlist ids) as [st' ->]. exists st'.
    split; [done|]. intros x. simpl. apply elem_of_list_to_set.
  - intros seen_ids ids <-. destruct (Hlist ids) as [st' ->]. by eexists _, _.
Qed.

(** C10.  When the password is set, the session with the relay logs in as
    [smtp_user] and the message is from [smtp_from]; where the configuration
    lacks one of them, the recipient address takes its place. *)
Theorem send_email_identity w d r new_jobs st password :
  d !! "email" = Some r →
  environ w !! "SMTP_PASSWORD" = Some password →
  password ≠ EmptyString →
  ∃ user msg evs,
    smtp_log (send_email w (JDict d) new_jobs st).2 =
      smtp_log st ++ Connect "smtp.gmail.com" 465 :: evs ∧
    (∀ ev, ev ∈ evs → ev = Login user password ∨ ev = Send msg ∨ ev = Quit) ∧
    (mail_relay w = Accepts → evs = [Login user password; Send msg; Quit]) ∧
    msg_to msg = r ∧
    (d !! "smtp_from" = None → msg_from msg = r) ∧
    (d !! "smtp_user" = None → user = r) ∧
    (∀ x, d !! "smtp_from" = Some x → msg_from msg = x) ∧
    (∀ x, d !! "smtp_user" = Some x → user = x).
Proof.
  intros Hr Hpw Hne. eexists _, _, _.
  split; [by apply send_email_traffic|]. simpl.
  split; [|split; [by intros ->|split; [done|]]].
  - intros ev. destruct (mail_relay w); rewrite ?elem_of_cons, elem_of_nil; tauto.
  - repeat split; by intros; simplify_option_eq.
Qed.

(** ** Exit status *)




Lemma py_getitem_outcome config key :
  (∃ r, py_getitem config key = Ok r) ∨ (∃ e, py_getitem config key = Raised e).
Proof.
  destruct config as [l|d]; simpl; [eauto|]. destruct (d !! key); eauto.
Qed.



End Runs.

(** ** The theorems at sample runs *)

#[local] Existing Instance ref_codec.

Lemma load_config_sample cfg seen :
  load_config (Sample.start (Sample.dir cfg seen)) =
  (Ok (JDict cfg), Sample.start (Sample.dir cfg seen)).
Proof.
  destruct (load_config_cases (Sample.start (Sample.dir cfg seen)))
    as [(E1 & _)|[(text & E1 & E2 & _)|(text & v & E1 & E2 & E)]];
    simpl in E1; unfold Sample.dir in E1;
    rewrite lookup_insert_eq in E1; simplify_eq.
  - change (RefJson.loads (RefJson.dumps (JDict cfg)) = None) in E2.
    by rewrite RefJsonFacts.loads_dumps in E2.
  - change (RefJson.loads (RefJson.dumps (JDict cfg)) = Some v) in E2.
    rewrite RefJsonFacts.loads_dumps in E2. by simplify_eq.
Qed.

Lemma load_seen_jobs_sample cfg seen :
  load_seen_jobs (Sample.start (Sample.dir cfg seen)) =
  (Ok (JList seen), Sample.start (Sample.dir cfg seen)).
Proof. apply load_seen_jobs_written. reflexivity. Qed.

(** A page-level failure: the scraper reports it and returns no jobs. *)
Lemma main_empty_scrape_witness :
  let w := Sample.world_of ∅ Sample.timeout Accepts in
  let st := Sample.start (Sample.dir Sample.config ["A"]) in
  (scrape_jobs w st).1 = Ok [] ∧
  files (main w st).2 = files st ∧
  smtp_log (main w st).2 = smtp_log st.
Proof.
  set (w := Sample.world_of ∅ Sample.timeout Accepts).
  set (st := Sample.start (Sample.dir Sample.config ["A"])).
  assert (scrape_jobs w st = (Ok [], (scrape_jobs w st).2)) as HL
    by (vm_compute; reflexivity).
  split; [by rewrite HL|].
  destruct (main_empty_scrape w st _ HL) as (Hf & Hm & _). by split.
Defined.

Lemma scrape_page_AB env r fs :
  let L := [Sample.job "A" "/jobs/list_A" "Annotator";
            Sample.job "B" "/jobs/list_B" "Data Labeler"] in
  ∃ st1, scrape_jobs (Sample.world_of env Sample.page_AB r) (Sample.start fs)
         = (Ok L, st1).
Proof. by eexists. Qed.

(** The scenario of the specification: A is known, A and B are listed. *)
Example diff_scenario :
  new_jobs_of {[ "A" ]}
    [Sample.job "A" "/jobs/list_A" "Annotator";
     Sample.job "B" "/jobs/list_B" "Data Labeler"]
  = [Sample.job "B" "/jobs/list_B" "Data Labeler"].
Proof. by vm_compute. Qed.

(** Job A is known, jobs A and B are listed: the run works with B alone. *)
Lemma main_new_jobs_witness :
  let w := Sample.world_of ∅ Sample.page_AB Accepts in
  let st := Sample.start (Sample.dir Sample.config ["A"]) in
  ∃ st1 rest,
    scrape_jobs w st =
      (Ok [Sample.job "A" "/jobs/list_A" "Annotator";
           Sample.job "B" "/jobs/list_B" "Data Labeler"], st1) ∧
    stdout (main w st).2 =
      stdout st1 ++
      ["Found 1 new job(s)!"; "  - Data Labeler ($25/hr)"] ++ rest.
Proof.
  intros w st.
  destruct (scrape_page_AB ∅ Accepts (Sample.dir Sample.config ["A"]))
    as [st1 HL].
  assert ([Sample.job "A" "/jobs/list_A" "Annotator";
           Sample.job "B" "/jobs/list_B" "Data Labeler"] ≠ []) as Hne by done.
  assert (∀ x, x ∈ ({[ "A" ]} : gset string) ↔ member x (JList ["A"])) as HS.
  { intros x. simpl. by rewrite elem_of_singleton, list_elem_of_singleton. }
  destruct (main_new_jobs w st _ _ _ _ _
              (load_config_sample _ _) (load_seen_jobs_sample _ _) HS HL Hne)
    as (new & Hkept & _ & _ & _ & [rest Hout] & _).
  apply kept_in_order_unique in Hkept. rewrite diff_scenario in Hkept.
  assert (report [Sample.job "B" "/jobs/list_B" "Data Labeler"] =
          ["Found 1 new job(s)!"; "  - Data Labeler ($25/hr)"]) as Hrep
    by (by vm_compute).
  rewrite Hkept, Hrep in Hout. exists st1, rest. split; [exact HL|exact Hout].
Defined.

(** Both listed jobs are known already. *)
Lemma main_nothing_new_witness :
  let w := Sample.world_of ∅ Sample.page_AB Accepts in
  let st := Sample.start (Sample.dir Sample.config ["A"; "B"]) in
  exit_status (main w st).1 = 0%Z ∧
  files (main w st).2 = files st ∧
  smtp_log (main w st).2 = smtp_log st.
Proof.
  set (w := Sample.world_of ∅ Sample.page_AB Accepts).
  set (st := Sample.start (Sample.dir Sample.config ["A"; "B"])).
  destruct (scrape_page_AB ∅ Accepts (Sample.dir Sample.config ["A"; "B"]))
    as [st1 HL].
  assert ([Sample.job "A" "/jobs/list_A" "Annotator";
           Sample.job "B" "/jobs/list_B" "Data Labeler"] ≠ []) as Hne by done.
  assert (∀ job,
            job ∈ [Sample.job "A" "/jobs/list_A" "Annotator";
                   Sample.job "B" "/jobs/list_B" "Data Labeler"] →
            id job ∈ py_set (JList ["A"; "B"])) as Hall
    by (apply new_jobs_of_empty; by vm_compute).
  destruct (main_nothing_new w st _ _ _ _
              (load_config_sample _ _) (load_seen_jobs_sample _ _) HL Hne Hall)
    as (Hmain & Hf & Hm).
  split; [by rewrite Hmain|by split].
Defined.

(** Job B is new and there is no password: B is recorded, nothing is sent. *)
Lemma main_without_password_witness :
  let w := Sample.world_of ∅ Sample.page_AB Accepts in
  let st := Sample.start (Sample.dir Sample.config ["A"]) in
  environ w !! "SMTP_PASSWORD" = None ∧
  ∃ st' seen',
    main w st = (Ok tt, st') ∧
    smtp_log st' = [] ∧
    load_seen_jobs st' = (Ok seen', st') ∧
    py_set seen' = {[ "A"; "B" ]}.
Proof.
  set (w := Sample.world_of ∅ Sample.page_AB Accepts).
  set (st := Sample.start (Sample.dir Sample.config ["A"])).
  destruct (scrape_page_AB ∅ Accepts (Sample.dir Sample.config ["A"]))
    as [st1 HL].
  assert (Sample.config !! "email" = Some "me@example.org") as Hr by done.
  assert (new_jobs_of (py_set (JList ["A"]))
            [Sample.job "A" "/jobs/list_A" "Annotator";
             Sample.job "B" "/jobs/list_B" "Data Labeler"] ≠ []) as Hnew
    by (by vm_compute).
  assert (environ w !! "SMTP_PASSWORD" = None) as Hpw by done.
  split; [exact Hpw|].
  destruct (main_without_password w st _ _ _ _ _
              (load_config_sample _ _) Hr (load_seen_jobs_sample _ _)
              HL Hnew Hpw)
    as (st' & Hmain & _ & Hm & _ & _ & seen' & Hload & Hset & _).
  exists st', seen'. split; [done|]. split; [done|]. split; [done|].
  rewrite Hset. by vm_compute.
Defined.

(** C3, as the claim has it, fails when the configuration has no recipient:
    job B is new and there is no password, yet the run ends with a
    [KeyError] (status 1), prints no warning and leaves the seen-jobs file
    without the id of B. *)
Lemma main_without_password_no_recipient :
  let w := Sample.world_of ∅ Sample.page_AB Accepts in
  let st := Sample.start (Sample.dir ∅ ["A"]) in
  let L := [Sample.job "A" "/jobs/list_A" "Annotator";
            Sample.job "B" "/jobs/list_B" "Data Labeler"] in
  environ w !! "SMTP_PASSWORD" = None ∧
  load_config st = (Ok (JDict ∅), st) ∧
  load_seen_jobs st = (Ok (JList ["A"]), st) ∧
  (scrape_jobs w st).1 = Ok L ∧
  new_jobs_of (py_set (JList ["A"])) L =
    [Sample.job "B" "/jobs/list_B" "Data Labeler"] ∧
  (main w st).1 = Raised (Exception "KeyError" "email") ∧
  exit_status (main w st).1 = 1%Z ∧
  ("Warning: SMTP_PASSWORD not set. Skipping email." ∉ stdout (main w st).2) ∧
  load_seen_jobs (main w st).2 = (Ok (JList ["A"]), (main w st).2) ∧
  ("B" ∉ py_set (JList ["A"])).
Proof.
  intros w st L.
  do 7 (split; [by vm_compute|]).
  split; [refine (bool_decide_unpack _ _); by vm_compute|].
  split; [by vm_compute|].
  refine (bool_decide_unpack _ _); by vm_compute.
Qed.

(** Job B is new and its id is written once. *)
Lemma main_persisted_ids_witness :
  let w := Sample.world_of Sample.password Sample.page_AB Accepts in
  let st := Sample.start (Sample.dir Sample.config ["A"]) in
  ∃ st' ids,
    main w st = (Ok tt, st') ∧
    load_seen_jobs st' = (Ok (JList ids), st') ∧
    NoDup ids.
Proof.
  set (w := Sample.world_of Sample.password Sample.page_AB Accepts).
  set (st := Sample.start (Sample.dir Sample.config ["A"])).
  destruct (scrape_page_AB Sample.password Accepts
              (Sample.dir Sample.config ["A"])) as [st1 HL].
  assert (Sample.config !! "email" = Some "me@example.org") as Hr by done.
  assert (new_jobs_of (py_set (JList ["A"]))
            [Sample.job "A" "/jobs/list_A" "Annotator";
             Sample.job "B" "/jobs/list_B" "Data Labeler"] ≠ []) as Hnew
    by (by vm_compute).
  assert (NoDup (id <$> [Sample.job "A" "/jobs/list_A" "Annotator";
                         Sample.job "B" "/jobs/list_B" "Data Labeler"]))
    as Hdup by (refine (bool_decide_unpack _ _); by vm_compute).
  destruct (main_persisted_ids w st _ _ _ _ _
              (load_config_sample _ _) Hr (load_seen_jobs_sample _ _) HL Hnew)
    as (st' & ids & old & Hmain & Hload & _ & _ & _ & _ & Hok & _).
  exists st', ids. split; [done|]. split; [done|]. by apply Hok.
Defined.

(** C4, as the claim has it, fails when the page lists a new job twice: its
    id is written twice. *)
Lemma main_persists_duplicates :
  let w := Sample.world_of ∅ Sample.page_XX Accepts in
  let st := Sample.start (Sample.dir Sample.config []) in
  exit_status (main w st).1 = 0%Z ∧
  load_seen_jobs (main w st).2 = (Ok (JList ["X"; "X"]), (main w st).2) ∧
  ¬ NoDup ["X"; "X"].
Proof.
  split; [by vm_compute|]. split; [by vm_compute|].
  intros Hdup. apply NoDup_cons in Hdup as [Hnotin _].
  apply Hnotin. left.
Qed.

(** A listing with a repetition, saved over an older file. *)
Lemma save_load_roundtrip_witness :
  let st := Sample.start (Sample.dir Sample.config ["A"]) in
  ∃ loaded st',
    (save_seen_jobs ["B"; "A"; "B"];; load_seen_jobs) st = (Ok loaded, st') ∧
    py_set loaded = {[ "A"; "B" ]}.
Proof.
  set (st := Sample.start (Sample.dir Sample.config ["A"])).
  assert (list_to_set ["B"; "A"; "B"] =@{gset string} {[ "A"; "B" ]}) as Hset
    by (by vm_compute).
  exact (proj2 (save_load_roundtrip st) _ _ Hset).
Defined.

(** One new job in a run that succeeds: the seen set grows by one. *)
Lemma main_seen_size_witness :
  let w := Sample.world_of Sample.password Sample.page_AB Accepts in
  let st := Sample.start (Sample.dir Sample.config ["A"]) in
  ∃ seen',
    load_seen_jobs (main w st).2 = (Ok seen', (main w st).2) ∧
    size (py_set seen') = 2.
Proof.
  set (w := Sample.world_of Sample.password Sample.page_AB Accepts).
  set (st := Sample.start (Sample.dir Sample.config ["A"])).
  destruct (scrape_page_AB Sample.password Accepts
              (Sample.dir Sample.config ["A"])) as [st1 HL].
  assert ([Sample.job "A" "/jobs/list_A" "Annotator";
           Sample.job "B" "/jobs/list_B" "Data Labeler"] ≠ []) as Hne by done.
  assert (NoDup (id <$> [Sample.job "A" "/jobs/list_A" "Annotator";
                         Sample.job "B" "/jobs/list_B" "Data Labeler"]))
    as Hdup by (refine (bool_decide_unpack _ _); by vm_compute).
  assert (main w st = (Ok tt, (main w st).2)) as Hmain by (by vm_compute).
  destruct (main_seen_size w st _ _ _ _ _
              (load_config_sample _ _) (load_seen_jobs_sample _ _)
              HL Hne Hdup Hmain)
    as (seen' & Hload & Hsize).
  exists seen'. split; [done|]. rewrite Hsize. by vm_compute.
Defined.

(** C6, as the claim has it, fails when the configuration has no recipient:
    the seen set has one element and the run finds one new job in a list
    without duplicate ids, but it ends before the file is written, so the
    seen set of the next load has one element, not two. *)
Lemma main_seen_size_no_recipient :
  let w := Sample.world_of Sample.password Sample.page_AB Accepts in
  let st := Sample.start (Sample.dir ∅ ["A"]) in
  let L := [Sample.job "A" "/jobs/list_A" "Annotator";
            Sample.job "B" "/jobs/list_B" "Data Labeler"] in
  load_seen_jobs st = (Ok (JList ["A"]), st) ∧
  size (py_set (JList ["A"])) = 1 ∧
  (scrape_jobs w st).1 = Ok L ∧
  L ≠ [] ∧ NoDup (id <$> L) ∧
  length (new_jobs_of (py_set (JList ["A"])) L) = 1 ∧
  load_seen_jobs (main w st).2 = (Ok (JList ["A"]), (main w st).2) ∧
  size (py_set (JList ["A"])) ≠ 1 + 1.
Proof.
  intros w st L.
  do 3 (split; [by vm_compute|]).
  split; [done|].
  split; [refine (bool_decide_unpack _ _); by vm_compute|].
  do 2 (split; [by vm_compute|]).
  by vm_compute.
Qed.

(** A configuration with the recipient only: login and sender fall back to
    it. *)
Lemma send_email_identity_witness :
  let w := Sample.world_of Sample.password Sample.page_AB Accepts in
  let st := Sample.start (Sample.dir Sample.config ["A"]) in
  let new := [Sample.job "B" "/jobs/list_B" "Data Labeler"] in
  ∃ msg,
    smtp_log (send_email w (JDict Sample.config) new st).2 =
      [Connect "smtp.gmail.com" 465;
       Login "me@example.org" "app-secret"; Send msg; Quit] ∧
    msg_from msg = "me@example.org" ∧
    msg_to msg = "me@example.org".
Proof.
  set (w := Sample.world_of Sample.password Sample.page_AB Accepts).
  set (st := Sample.start (Sample.dir Sample.config ["A"])).
  set (new := [Sample.job "B" "/jobs/list_B" "Data Labeler"]).
  assert (Sample.config !! "email" = Some "me@example.org") as Hr by done.
  assert (environ w !! "SMTP_PASSWORD" = Some "app-secret") as Hpw by done.
  assert ("app-secret" ≠ EmptyString) as Hne by done.
  destruct (send_email_identity w _ _ new st _ Hr Hpw Hne)
    as (user & msg & evs & Hlog & _ & Hacc & Hto & Hfrom & Huser & _).
  exists msg. rewrite Hlog, (Hacc eq_refl), (Huser eq_refl).
  split; [done|]. split; [by apply Hfrom|done].
Defined.


(** * Further properties of the script *)

(** ** Trimming *)

Lemma rev_app_app s t u :
  String.rev_app (s +:+ t) u = String.rev_app t (String.rev_app s u).
Proof.
  revert u. induction s as [|c s IH]; intros u; [done|].
  rewrite str_app_cons. simpl. apply IH.
Qed.

Lemma rev_app_acc s u : String.rev_app s u = String.rev s +:+ u.
Proof.
  unfold String.rev. revert u. induction s as [|c s IH]; intros u; [done|].
  simpl. rewrite IH, (IH (String c EmptyString)).
  by rewrite str_app_assoc.
Qed.

Lemma rev_app_distr s t : String.rev (s +:+ t) = String.rev t +:+ String.rev s.
Proof. unfold String.rev at 1. by rewrite rev_app_app, rev_app_acc. Qed.

Lemma rev_cons c s :
  String.rev (String c s) = String.rev s +:+ String c EmptyString.
Proof. unfold String.rev at 1. simpl. apply rev_app_acc. Qed.

Lemma rev_involutive s : String.rev (String.rev s) = s.
Proof.
  induction s as [|c s IH]; [done|].
  by rewrite rev_cons, rev_app_distr, IH.
Qed.

Lemma blank_app s t : blank (s +:+ t) = blank s && blank t.
Proof.
  induction s as [|c s IH]; [done|].
  rewrite str_app_cons. simpl. rewrite IH. by destruct (PyStr.is_space c).
Qed.

Lemma blank_rev s : blank (String.rev s) = blank s.
Proof.
  induction s as [|c s IH]; [done|].
  rewrite rev_cons, blank_app, IH. simpl.
  by destruct (PyStr.is_space c), (blank s).
Qed.

Lemma lstrip_head s c t :
  PyStr.lstrip s = String c t → PyStr.is_space c = false.
Proof.
  induction s as [|d s IH]; simpl; [done|].
  destruct (PyStr.is_space d) eqn:E; [done|]. by intros [= <- _].
Qed.

Lemma lstrip_suffix s :
  ∃ l, s = l +:+ PyStr.lstrip s ∧ blank l = true.
Proof.
  induction s as [|d s (l & IH & Hl)]; simpl; [by exists EmptyString|].
  destruct (PyStr.is_space d) eqn:E; [|by exists EmptyString].
  exists (String d l). rewrite str_app_cons, <-IH. simpl. by rewrite E, Hl.
Qed.

Lemma rstrip_last s c t :
  PyStr.rstrip s = t +:+ String c EmptyString → PyStr.is_space c = false.
Proof.
  unfold PyStr.rstrip. intros Hs.
  apply (f_equal String.rev) in Hs.
  rewrite rev_involutive, rev_app_distr in Hs. by apply lstrip_head in Hs.
Qed.

Lemma rstrip_prefix s :
  ∃ r, s = PyStr.rstrip s +:+ r ∧ blank r = true.
Proof.
  unfold PyStr.rstrip.
  destruct (lstrip_suffix (String.rev s)) as (l & Hs & Hl).
  exists (String.rev l). rewrite blank_rev. split; [|done].
  rewrite <-rev_app_distr, <-Hs. by rewrite rev_involutive.
Qed.

Lemma strip_trimming s : trimming s (PyStr.strip s).
Proof.
  unfold PyStr.strip.
  destruct (lstrip_suffix s) as (l & Hl & Hbl).
  destruct (rstrip_prefix (PyStr.lstrip s)) as (r & Hr & Hbr).
  split; [split|].
  - intros c t Hs. rewrite Hs, str_app_cons in Hr. by eapply lstrip_head.
  - intros c t Hs. by eapply rstrip_last.
  - exists l, r. by rewrite <-Hr.
Qed.

(** ** The scraper, element by element *)

Lemma extract_live w a st :
  ∃ job, extract w (Live a) st = (Ok job, set_ticks (S (ticks st)) st) ∧
         record_of w a job.
Proof.
  unfold extract, bind, lift, datetime_now.
  destruct (job_id_of_total (href a)) as [job_id Hid]. rewrite Hid.
  eexists. split; [done|]. split.
  - unfold record_link. simpl. split; [done|]. split; [done|].
    split; [by eexists|]. by repeat split; intros ->.
  - unfold record_texts. simpl. repeat split; apply strip_trimming.
Qed.

Lemma extract_all_spec w els jobs st :
  ∃ more st',
    extract_all w els jobs st = (Ok (jobs ++ more), st') ∧
    Forall2 (record_of w) (live els) more ∧
    stdout st' = stdout st ++ (parse_error_line <$> stale els).
Proof.
  revert jobs st. induction els as [|[a|e] els IH]; intros jobs st.
  - exists [], st. simpl. by rewrite !(right_id_L [] (++)).
  - destruct (extract_live w a st) as (job & Hjob & Hrec).
    destruct (IH (jobs ++ [job]) (set_ticks (S (ticks st)) st))
      as (more & st' & Hrest & Hall & Hout).
    exists (job :: more), st'. split; [|split].
    + cbn [extract_all]. unfold bind at 1. unfold try_except, bind at 1.
      rewrite Hjob. cbn [ret]. rewrite Hrest. by rewrite <-(assoc_L (++)).
    + by constructor.
    + done.
  - destruct (IH jobs (set_stdout (stdout st ++ [parse_error_line e]) st))
      as (more & st' & Hrest & Hall & Hout).
    exists more, st'. split; [|split].
    + cbn [extract_all]. unfold bind at 1. unfold try_except, bind at 1.
      cbn [extract raise]. unfold bind at 1, print at 1. cbn [ret].
      exact Hrest.
    + done.
    + rewrite Hout. simpl. by rewrite <-(assoc_L (++)).
Qed.

(** X1.  When the page lists elements, the scraper returns one record per
    element that answers, in page order: its id comes from the link target of
    the element, its url is that link target on the site's origin, its time
    stamp is a reading of the clock, and a text the element lacks is
    replaced by the placeholder.  An element that raises costs only its own
    record and is reported on a line of its own.  The browser is closed at
    the end and the last line of output counts the records. *)
Theorem scrape_jobs_listing w els st :
  site w = Launched (Listing els) →
  ∃ jobs st',
    scrape_jobs w st = (Ok jobs, st') ∧
    Forall2 (record_link w) (live els) jobs ∧
    stdout st' =
      stdout st ++
      ["[" +:+ dt_str (clock w (ticks st)) +:+ "] Scraping Mercor jobs..."] ++
      (parse_error_line <$> stale els) ++
      ["Found " +:+ pretty (length (live els)) +:+ " total jobs"] ∧
    browser_running st' = false.
Proof.
  intros Hsite. unfold scrape_jobs, bind, datetime_now, print. rewrite Hsite.
  unfold browser_started, try_finally, try_except, browser_close.
  match goal with |- context [extract_all w els [] ?s] =>
    destruct (extract_all_spec w els [] s) as (jobs & st' & -> & Hall & Hout)
  end.
  simpl in *. eexists _, _. split; [done|].
  split; [by eapply Forall2_impl; [exact Hall|intros a job [Hlink _]]|].
  simpl. rewrite Hout, (Forall2_length _ _ _ Hall), <-!(assoc_L (++)).
  by split.
Qed.

(** X2.  When navigation or the wait for the selector fails, the scraper
    catches the exception, reports it, returns the empty list and closes the
    browser; files and mail traffic are untouched. *)
Theorem scrape_jobs_page_error w e st :
  site w = Launched (PageError e) →
  ∃ st',
    scrape_jobs w st = (Ok [], st') ∧
    stdout st' =
      stdout st ++
      ["[" +:+ dt_str (clock w (ticks st)) +:+ "] Scraping Mercor jobs...";
       "Error scraping jobs: " +:+ exn_text e;
       "Found 0 total jobs"] ∧
    browser_running st' = false ∧
    files st' = files st ∧
    smtp_log st' = smtp_log st.
Proof.
  intros Hsite. unfold scrape_jobs, bind, datetime_now, print. rewrite Hsite.
  unfold browser_started, try_finally, try_except, browser_close, raise, bind,
    print.
  simpl. eexists. split; [done|]. simpl. by rewrite <-!(assoc_L (++)).
Qed.

Lemma scrape_jobs_records w st jobs st' :
  scrape_jobs w st = (Ok jobs, st') →
  Forall2 (record_of w) (page_anchors (site w)) jobs.
Proof.
  intros HL. destruct (site w) as [e|[e|els]] eqn:Hsite.
  - destruct (scrape_jobs_cases w st)
      as [(? & ? & _ & E)|(? & ? & ? & E' & _)]; congruence.
  - destruct (scrape_jobs_cases w st)
      as [(? & ? & E' & _)|(p & jobs' & ? & E' & E & _ & Hnil)];
      [congruence|].
    rewrite E in HL. simplify_eq.
    assert (p = PageError e) as Hp by congruence.
    rewrite (Hnil e Hp). constructor.
  - unfold scrape_jobs, bind, datetime_now, print in HL. rewrite Hsite in HL.
    unfold browser_started, try_finally, try_except, browser_close in HL.
    match type of HL with context [extract_all w els [] ?s] =>
      destruct (extract_all_spec w els [] s) as (more & st2 & E & Hall & _)
    end.
    rewrite E in HL. simpl in HL. unfold ret in HL. by simplify_eq.
Qed.

(** X3.  In every record the scraper returns, the title, the pay and the
    hired text neither start nor end with white space, that is with a
    character for which [str.isspace] holds. *)
Theorem scraped_fields_trimmed w st jobs st' job :
  scrape_jobs w st = (Ok jobs, st') →
  job ∈ jobs →
  trimmed (title job) ∧ trimmed (pay job) ∧ trimmed (hired job).
Proof.
  intros HL Hin. pose proof (scrape_jobs_records _ _ _ _ HL) as Hall.
  apply list_elem_of_lookup in Hin as [i Hi].
  destruct (Forall2_lookup_r _ _ _ _ _ Hall Hi)
    as (a & _ & _ & [Ht _] & [Hp _] & [Hh _]).
  done.
Qed.

(** X18.  The three texts of a record are the inner texts of its element, or
    the placeholders where the element lacks one, without the white space at
    their two ends: what is cut off on either side is white space only. *)
Theorem scraped_texts w st jobs st' :
  scrape_jobs w st = (Ok jobs, st') →
  Forall2 record_texts (page_anchors (site w)) jobs.
Proof.
  intros HL. pose proof (scrape_jobs_records _ _ _ _ HL) as Hall.
  eapply Forall2_impl; [exact Hall|]. by intros a job [_ Htexts].
Qed.

(** ** The id of a link target *)

Lemma partition_None_occurs sep s :
  PyStr.partition sep s = None → ¬ occurs sep s.
Proof.
  intros E Hocc%contains_occurs. unfold PyStr.contains in Hocc.
  by rewrite E in Hocc.
Qed.

Lemma partition_before_clean sep s before after :
  sep ≠ EmptyString →
  PyStr.partition sep s = Some (before, after) → ¬ occurs sep before.
Proof.
  intros Hsep E (u & v & ->).
  pose proof (partition_sound _ _ _ _ E) as Hs.
  rewrite !str_app_assoc in Hs.
  pose proof (partition_first _ _ _ _ E _ _ Hs) as Hle.
  rewrite !str_length_app in Hle.
  destruct sep; [done|]. simpl in Hle. lia.
Qed.

(** X4.  The id derived from a link target is a piece of that link target,
    and when the link target holds the marker the id does not. *)
Theorem job_id_of_piece href job_id :
  job_id_of href = Ok job_id →
  occurs job_id href ∧ (occurs "list_" href → ¬ occurs "list_" job_id).
Proof.
  intros Hid. destruct (PyStr.partition "list_" href) as [[b a]|] eqn:E.
  - rewrite (job_id_of_present _ _ _ E) in Hid.
    pose proof (partition_sound _ _ _ _ E) as ->.
    destruct (PyStr.partition "list_" a) as [[mid tail]|] eqn:E';
      simplify_eq.
    + pose proof (partition_sound _ _ _ _ E') as ->. split.
      * exists (b +:+ "list_"), ("list_" +:+ tail). by rewrite !str_app_assoc.
      * intros _. by eapply partition_before_clean.
    + split.
      * exists (b +:+ "list_"), EmptyString.
        by rewrite str_app_nil_r, !str_app_assoc.
      * intros _. by apply partition_None_occurs.
  - rewrite (job_id_of_absent _ E) in Hid. simplify_eq. split.
    + exists EmptyString, EmptyString. by rewrite str_app_nil_r.
    + intros Hocc. by apply partition_None_occurs in E.
Qed.

(** ** Delivery *)

Ltac send_email_unfold E Hpw :=
  unfold send_email, bind at 1; unfold lift at 1; simpl;
  rewrite E; unfold try_except, bind at 1; unfold lift at 1; simpl;
  rewrite Hpw;
  lazymatch goal with
  | H : ?p ≠ EmptyString |- _ => destruct p; [done|]
  end;
  simpl; unfold bind at 1;
  unfold smtp_session, try_finally, bind, smtp, raise, print, lift.

Lemma send_email_accepted w d r password new_jobs st :
  d !! "email" = Some r →
  environ w !! "SMTP_PASSWORD" = Some password →
  password ≠ EmptyString →
  mail_relay w = Accepts →
  ∃ st',
    send_email w (JDict d) new_jobs st = (Ok tt, st') ∧
    stdout st' = stdout st ++ ["Email sent successfully to " +:+ r].
Proof.
  intros E Hpw Hne Hrelay. send_email_unfold E Hpw.
  rewrite Hrelay. simpl. by eexists.
Qed.

Lemma send_email_relay_error w d r password new_jobs st e :
  d !! "email" = Some r →
  environ w !! "SMTP_PASSWORD" = Some password →
  password ≠ EmptyString →
  relay_error (mail_relay w) = Some e →
  ∃ st',
    send_email w (JDict d) new_jobs st = (Ok tt, st') ∧
    stdout st' = stdout st ++ ["Error sending email: " +:+ exn_text e].
Proof.
  intros E Hpw Hne Hrelay. send_email_unfold E Hpw.
  destruct (mail_relay w); simplify_eq/=; by eexists.
Qed.

(** X5.  With a recipient and a password, [send_email] returns normally
    whatever the relay does, writes no file and prints exactly one line: the
    success line when the relay accepted the message, the text of the
    exception otherwise. *)
Theorem send_email_reports w d r password new_jobs st :
  d !! "email" = Some r →
  environ w !! "SMTP_PASSWORD" = Some password →
  password ≠ EmptyString →
  ∃ st',
    send_email w (JDict d) new_jobs st = (Ok tt, st') ∧
    files st' = files st ∧
    stdout st' =
      stdout st ++
      [match mail_relay w with
       | Accepts => "Email sent successfully to " +:+ r
       | RefusesConnection e | RejectsLogin e | RejectsMessage e =>
           "Error sending email: " +:+ exn_text e
       end].
Proof.
  intros E Hpw Hne.
  assert (∃ st', send_email w (JDict d) new_jobs st = (Ok tt, st') ∧
                 stdout st' =
                 stdout st ++
                 [match mail_relay w with
                  | Accepts => "Email sent successfully to " +:+ r
                  | RefusesConnection e | RejectsLogin e | RejectsMessage e =>
                      "Error sending email: " +:+ exn_text e
                  end]) as (st' & Hrun & Hout).
  { destruct (mail_relay w) as [|e|e|e] eqn:Hrelay.
    - by eapply send_email_accepted.
    - eapply send_email_relay_error; [done..|]. by rewrite Hrelay.
    - eapply send_email_relay_error; [done..|]. by rewrite Hrelay.
    - eapply send_email_relay_error; [done..|]. by rewrite Hrelay. }
  exists st'. split; [done|]. split; [|done].
  by apply send_email_files in Hrun.
Qed.

(** X6.  With a recipient, [send_email] contacts the relay exactly when
    [SMTP_PASSWORD] is set to a non-empty value: an empty password counts as
    none. *)
Theorem send_email_contacts_relay w d r new_jobs st :
  d !! "email" = Some r →
  smtp_log (send_email w (JDict d) new_jobs st).2 ≠ smtp_log st ↔
  ∃ password, environ w !! "SMTP_PASSWORD" = Some password ∧
              password ≠ EmptyString.
Proof.
  intros E. destruct (environ w !! "SMTP_PASSWORD") as [[|c password]|] eqn:Hpw.
  - rewrite (send_email_skips _ _ _ _ _ E) by by rewrite Hpw.
    simpl. split; [done|]. by intros (? & [= <-] & ?).
  - rewrite (send_email_traffic _ _ _ _ _ _ E Hpw) by done.
    split; [by eauto|]. intros _ Heq.
    apply (f_equal length) in Heq. rewrite length_app in Heq. simpl in Heq. lia.
  - rewrite (send_email_skips _ _ _ _ _ E) by by rewrite Hpw.
    simpl. split; [done|]. by intros (? & [=] & ?).
Qed.

(** ** More on runs of [main] *)
Section MoreRuns.
Context `{JsonCodec}.


(** The files after a run: as before, or with the seen-jobs file rewritten
    from the loaded set and the new jobs. *)
Lemma main_files_cases w st :
  files (main w st).2 = files st ∨
  ∃ seen L st1,
    load_seen_jobs st = (Ok seen, st) ∧
    scrape_jobs w st = (Ok L, st1) ∧
    files (main w st).2 =
      <[JOBS_FILE :=
          json_dumps
            (JList (elements (py_set seen) ++
                    (id <$> new_jobs_of (py_set seen) L)))]> (files st).
Proof.
  destruct (load_config st) as [[config|e|c] st0] eqn:Hc;
    [destruct (load_config_Ok _ _ _ Hc) as [-> _]
    |left; pose proof (load_config_quiet _ _ _ Hc) as [??];
     unfold main, bind; by rewrite Hc..].
  destruct (load_seen_jobs st) as [[seen|e|c] st0] eqn:Hs;
    [pose proof (load_seen_jobs_Ok _ _ _ Hs) as ->
    |left; pose proof (load_seen_jobs_quiet _ _ _ Hs) as [??];
     unfold main, bind; by rewrite Hc, Hs..].
  destruct (scrape_jobs w st) as [[L|e|c] st1] eqn:HL;
    pose proof (scrape_jobs_quiet _ _ _ _ HL) as [??];
    [|left; unfold main, bind; by rewrite Hc, Hs, HL..].
  destruct (decide (L = [])) as [->|Hne].
  { left. by rewrite (main_no_jobs _ _ _ _ _ Hc Hs HL). }
  destruct (decide (new_jobs_of (py_set seen) L = [])) as [Hnew|Hnew].
  { left. by rewrite (main_no_new _ _ _ _ _ _ Hc Hs HL Hne Hnew). }
  destruct (py_getitem_outcome config "email") as [[r Hr]|[e Hr]].
  - apply py_getitem_Ok in Hr as (d & -> & Hr). right.
    destruct (main_persists _ _ _ _ _ _ _ Hc Hr Hs HL Hnew)
      as (st2 & st3 & _ & _ & ->).
    by exists seen, L, st1.
  - left. destruct (main_no_recipient _ _ _ _ _ _ _ Hc Hr Hs HL Hnew)
      as (st2 & [??] & ->).
    done.
Qed.

(** X7.  When new jobs are found and the configuration is an object without
    an [email] entry, the run ends with [KeyError]: nothing is sent and the
    seen-jobs file is not written, so the same jobs are new again in the next
    run. *)
Theorem main_missing_recipient w st d seen L st1 :
  load_config st = (Ok (JDict d), st) →
  d !! "email" = None →
  load_seen_jobs st = (Ok seen, st) →
  scrape_jobs w st = (Ok L, st1) →
  new_jobs_of (py_set seen) L ≠ [] →
  ∃ st',
    main w st = (Raised (Exception "KeyError" "email"), st') ∧
    files st' = files st ∧
    smtp_log st' = smtp_log st ∧
    load_seen_jobs st' = (Ok seen, st').
Proof.
  intros Hc Hr Hs HL Hnew.
  assert (py_getitem (JDict d) "email" = Raised (Exception "KeyError" "email"))
    as Hget by (simpl; by rewrite Hr).
  destruct (main_no_recipient _ _ _ _ _ _ _ Hc Hget Hs HL Hnew)
    as (st' & [Hf Hm] & Hmain).
  exists st'. split; [done|]. split; [done|]. split; [done|].
  by apply (load_seen_jobs_files st).
Qed.

(** X8.  A relay that fails does not cost the update: with a recipient, a
    password and new jobs, the run reports the relay's exception, returns
    normally and still writes the seen-jobs file with every new id. *)
Theorem main_persists_after_relay_error w st d r password e seen L st1 :
  load_config st = (Ok (JDict d), st) →
  d !! "email" = Some r →
  environ w !! "SMTP_PASSWORD" = Some password →
  password ≠ EmptyString →
  relay_error (mail_relay w) = Some e →
  load_seen_jobs st = (Ok seen, st) →
  scrape_jobs w st = (Ok L, st1) →
  new_jobs_of (py_set seen) L ≠ [] →
  let new := new_jobs_of (py_set seen) L in
  ∃ st' seen',
    main w st = (Ok tt, st') ∧
    "Error sending email: " +:+ exn_text e ∈ stdout st' ∧
    load_seen_jobs st' = (Ok seen', st') ∧
    py_set seen' = py_set seen ∪ list_to_set (id <$> new).
Proof.
  intros Hc Hr Hpw Hne Hrelay Hs HL Hnew new.
  destruct (main_persists _ _ _ _ _ _ _ Hc Hr Hs HL Hnew)
    as (st2 & st3 & _ & He & Hmain).
  destruct (send_email_relay_error w d r password new st2 e Hr Hpw Hne Hrelay)
    as (st3' & He' & Hout).
  fold new in He. rewrite He in He'. simplify_eq.
  eexists _, _. split; [exact Hmain|]. simpl. split; [|split].
  - rewrite Hout. apply elem_of_app. right. left.
  - apply load_seen_jobs_written. simpl. apply lookup_insert_eq.
  - apply py_set_persisted.
Qed.

(** X9.  One message per run: with a recipient, a password and a relay that
    accepts, a run that finds new jobs opens one session, logs in once and
    sends one message to the recipient, whose subject and body are built from
    the whole list of new jobs. *)
Theorem main_sends_one_message w st d r password seen L st1 :
  load_config st = (Ok (JDict d), st) →
  d !! "email" = Some r →
  environ w !! "SMTP_PASSWORD" = Some password →
  password ≠ EmptyString →
  mail_relay w = Accepts →
  load_seen_jobs st = (Ok seen, st) →
  scrape_jobs w st = (Ok L, st1) →
  new_jobs_of (py_set seen) L ≠ [] →
  let new := new_jobs_of (py_set seen) L in
  smtp_log (main w st).2 =
    smtp_log st ++
    [Connect "smtp.gmail.com" 465;
     Login (default r (d !! "smtp_user")) password;
     Send {| msg_subject := subject_of new;
             msg_from := default r (d !! "smtp_from");
             msg_to := r;
             msg_html := html_body_of new |};
     Quit].
Proof.
  intros Hc Hr Hpw Hne Hrelay Hs HL Hnew new.
  destruct (main_persists _ _ _ _ _ _ _ Hc Hr Hs HL Hnew)
    as (st2 & st3 & [_ Hm] & He & ->).
  simpl. fold new in He.
  pose proof (send_email_traffic w d new st2 r password Hr Hpw Hne) as Hlog.
  rewrite He, Hrelay, Hm in Hlog. exact Hlog.
Qed.





(** X11.  The seen set only grows: whatever a run does, the set the next run
    loads contains the set this run loaded, so an id is never forgotten,
    also when the job has left the page. *)
Theorem main_seen_set_grows w st seen :
  load_seen_jobs st = (Ok seen, st) →
  ∃ seen',
    load_seen_jobs (main w st).2 = (Ok seen', (main w st).2) ∧
    py_set seen ⊆ py_set seen'.
Proof.
  intros Hs.
  destruct (main_files_cases w st) as [Hf|(seen0 & L & st1 & Hs0 & _ & Hf)].
  - exists seen. split; [|done]. by apply (load_seen_jobs_files st).
  - rewrite Hs in Hs0. simplify_eq. eexists. split.
    + apply load_seen_jobs_written. rewrite Hf. apply lookup_insert_eq.
    + rewrite py_set_persisted. apply union_subseteq_l.
Qed.

(** X12.  The seen-jobs file is the only file a run ever writes: every other
    file, the configuration included, is the same after the run, however the
    run ends. *)
Theorem main_writes_only_seen_jobs w st name :
  name ≠ JOBS_FILE →
  files (main w st).2 !! name = files st !! name.
Proof.
  intros Hname.
  destruct (main_files_cases w st) as [->|(seen & L & st1 & _ & _ & ->)];
    [done|].
  by rewrite lookup_insert_ne.
Qed.

(** X13.  A first run, with no seen-jobs file: every scraped job is new, and
    the file is created with the ids of the scraped jobs in page order. *)
Theorem main_first_run w st d r L st1 :
  load_config st = (Ok (JDict d), st) →
  d !! "email" = Some r →
  missing JOBS_FILE st →
  scrape_jobs w st = (Ok L, st1) →
  L ≠ [] →
  ∃ st',
    main w st = (Ok tt, st') ∧
    load_seen_jobs st' = (Ok (JList (id <$> L)), st').
Proof.
  intros Hc Hr Hmiss HL Hne.
  assert (load_seen_jobs st = (Ok (JList []), st)) as Hs.
  { destruct (load_seen_jobs_cases st)
      as [(_ & E)|[(? & E & _)|(? & ? & E & _)]]; [done|..];
      unfold missing in Hmiss; congruence. }
  assert (new_jobs_of (py_set (JList [])) L = L) as Hall.
  { unfold new_jobs_of. simpl. clear. induction L as [|job L IH]; [done|].
    rewrite filter_cons_True by apply not_elem_of_empty. by rewrite IH. }
  assert (new_jobs_of (py_set (JList [])) L ≠ []) as Hnew by by rewrite Hall.
  destruct (main_persists _ _ _ _ _ _ _ Hc Hr Hs HL Hnew)
    as (st2 & st3 & _ & _ & Hmain).
  eexists. split; [exact Hmain|].
  apply load_seen_jobs_written. cbn [files set_files].
  rewrite lookup_insert_eq, Hall.
  change (py_set (JList [])) with (∅ : gset string).
  by rewrite elements_empty.
Qed.

(** X14.  Without a configuration file the run ends with status 1 before
    anything else happens: one line is printed, the clock is not read, the
    browser is not started, no file is touched and nothing is sent. *)
Theorem main_missing_config w st :
  missing CONFIG_FILE st →
  main w st =
  (Exited 1,
   set_stdout
     (stdout st ++
      ["Error: config.json not found. Please create it with your email settings."])
     st).
Proof.
  intros Hmiss. unfold missing in Hmiss.
  unfold main, bind at 1. unfold load_config, bind, path_exists.
  by rewrite Hmiss, bool_decide_false by (by intros [??]).
Qed.

(** X15.  A configuration file or a seen-jobs file that is not JSON stops the
    run with [JSONDecodeError] before the scraper starts: the state is left
    exactly as it was. *)
Theorem main_unreadable_file w st :
  unreadable CONFIG_FILE st ∨
  (∃ config, load_config st = (Ok config, st)) ∧ unreadable JOBS_FILE st →
  ∃ name,
    main w st = (Raised (Exception "JSONDecodeError" name), st) ∧
    (name = CONFIG_FILE ∨ name = JOBS_FILE).
Proof.
  intros [(text & E1 & E2)|[[config Hc] (text & E1 & E2)]].
  - exists CONFIG_FILE. split; [|by left].
    unfold main, bind at 1. unfold load_config, bind, path_exists.
    rewrite bool_decide_true by (rewrite E1; eauto). simpl.
    by rewrite json_load_run, E1, E2.
  - exists JOBS_FILE. split; [|by right].
    unfold main, bind at 1. rewrite Hc. unfold bind at 1.
    unfold load_seen_jobs, bind, path_exists.
    rewrite bool_decide_true by (rewrite E1; eauto). simpl.
    by rewrite json_load_run, E1, E2.
Qed.

(** X16.  Saving is not additive: a second save replaces the first without
    a trace, so what is loaded afterwards is the second list only. *)
Theorem save_seen_jobs_overwrites (first second : list string) st :
  (save_seen_jobs first;; save_seen_jobs second) st = save_seen_jobs second st ∧
  ∃ st',
    (save_seen_jobs first;; save_seen_jobs second;; load_seen_jobs) st
    = (Ok (JList second), st').
Proof.
  assert ((save_seen_jobs first;; save_seen_jobs second) st
          = save_seen_jobs second st) as Hsave.
  { unfold bind, save_seen_jobs, write_file, set_files. simpl.
    by rewrite insert_insert_eq. }
  split; [done|]. eexists.
  change ((save_seen_jobs first;; save_seen_jobs second;; load_seen_jobs) st)
    with (match (save_seen_jobs first;; save_seen_jobs second) st with
          | (Ok _, st') => load_seen_jobs st'
          | (Raised e, st') => (Raised e, st')
          | (Exited c, st') => (Exited c, st')
          end).
  rewrite Hsave. unfold save_seen_jobs, write_file.
  apply load_seen_jobs_written. simpl. apply lookup_insert_eq.
Qed.

End MoreRuns.

(** ** The body of the message *)

Lemma occurs_here t u v : occurs t (u +:+ t +:+ v).
Proof. by exists u, v. Qed.

Lemma occurs_app_l t x y : occurs t x → occurs t (x +:+ y).
Proof.
  intros (u & v & ->). exists u, (v +:+ y). by rewrite !str_app_assoc.
Qed.

Lemma occurs_app_r t x y : occurs t y → occurs t (x +:+ y).
Proof.
  intros (u & v & ->). exists (x +:+ u), v. by rewrite !str_app_assoc.
Qed.

Lemma occurs_trans a b c : occurs a b → occurs b c → occurs a c.
Proof. intros Hab (u & v & ->). by apply occurs_app_r, occurs_app_l. Qed.

(** Walks down a text built with [+:+] to the piece looked for. *)
Ltac find_piece :=
  solve [ apply occurs_here
        | apply occurs_app_r; find_piece
        | apply occurs_app_l; find_piece ].

Lemma html_job_mentions job :
  occurs (title job) (html_job job) ∧
  occurs (pay job) (html_job job) ∧
  occurs (hired job) (html_job job) ∧
  occurs (url job) (html_job job) ∧
  occurs (found_at job) (html_job job).
Proof.
  unfold html_job, unlines. cbn [String.concat].
  repeat split; find_piece.
Qed.

Lemma foldl_blocks_keeps t (jobs : list JobRecord) init :
  occurs t init →
  occurs t (foldl (λ body job, body +:+ html_job job) init jobs).
Proof.
  revert init. induction jobs as [|job jobs IH]; intros init Hin; [done|].
  simpl. by apply IH, occurs_app_l.
Qed.

Lemma foldl_blocks_mentions (jobs : list JobRecord) job init :
  job ∈ jobs →
  occurs (html_job job) (foldl (λ body job, body +:+ html_job job) init jobs).
Proof.
  revert init. induction jobs as [|job' jobs IH]; intros init Hin.
  - by apply elem_of_nil in Hin.
  - simpl. apply elem_of_cons in Hin as [->|Hin]; [|by apply IH].
    apply foldl_blocks_keeps. exists init, EmptyString.
    by rewrite str_app_nil_r.
Qed.

(** X17.  The body of the message names every new job: its title, pay,
    hired text, link and time stamp all stand in the HTML. *)
Theorem html_body_mentions new_jobs job :
  job ∈ new_jobs →
  occurs (title job) (html_body_of new_jobs) ∧
  occurs (pay job) (html_body_of new_jobs) ∧
  occurs (hired job) (html_body_of new_jobs) ∧
  occurs (url job) (html_body_of new_jobs) ∧
  occurs (found_at job) (html_body_of new_jobs).
Proof.
  intros Hin.
  assert (occurs (html_job job) (html_body_of new_jobs)) as Hblock
    by by apply occurs_app_l, foldl_blocks_mentions.
  destruct (html_job_mentions job) as (Ht & Hp & Hh & Hu & Hf).
  repeat split; by eapply occurs_trans.
Qed.

(** ** The further properties at sample inputs *)

Lemma scrape_jobs_listing_witness :
  let w := Sample.world_of ∅ (Launched (Listing Sample2.page_A_stale_B))
             Accepts in
  ∃ jobs st',
    scrape_jobs w (Sample.start ∅) = (Ok jobs, st') ∧
    length jobs = 2 ∧
    parse_error_line Sample2.detached ∈ stdout st'.
Proof.
  set (w := Sample.world_of ∅ (Launched (Listing Sample2.page_A_stale_B))
              Accepts).
  assert (site w = Launched (Listing Sample2.page_A_stale_B)) as Hsite by done.
  destruct (scrape_jobs_listing w _ (Sample.start ∅) Hsite)
    as (jobs & st' & HL & Hall & Hout & _).
  exists jobs, st'. split; [done|]. split.
  - by rewrite <-(Forall2_length _ _ _ Hall).
  - rewrite Hout. apply elem_of_app. right. right. left.
Defined.

Lemma scrape_jobs_page_error_witness :
  let w := Sample.world_of ∅ Sample.timeout Accepts in
  ∃ st',
    scrape_jobs w (Sample.start ∅) = (Ok [], st') ∧
    "Error scraping jobs: Timeout 30000ms exceeded." ∈ stdout st' ∧
    browser_running st' = false.
Proof.
  set (w := Sample.world_of ∅ Sample.timeout Accepts).
  assert (site w = Launched (PageError
            (Exception "TimeoutError" "Timeout 30000ms exceeded."))) as Hsite
    by done.
  destruct (scrape_jobs_page_error w _ (Sample.start ∅) Hsite)
    as (st' & HL & Hout & Hb & _).
  exists st'. split; [done|]. split; [|done].
  rewrite Hout. right. left.
Defined.

Lemma scraped_fields_trimmed_witness :
  let w := Sample.world_of ∅ Sample2.page_padded Accepts in
  (scrape_jobs w (Sample.start ∅)).1 = Ok [Sample2.job_B] ∧
  trimmed (title Sample2.job_B).
Proof.
  set (w := Sample.world_of ∅ Sample2.page_padded Accepts).
  assert (scrape_jobs w (Sample.start ∅) =
          (Ok [Sample2.job_B], (scrape_jobs w (Sample.start ∅)).2)) as HL
    by (by vm_compute).
  assert (Sample2.job_B ∈ [Sample2.job_B]) as Hin by left.
  split; [by rewrite HL|].
  exact (proj1 (scraped_fields_trimmed w _ _ _ _ HL Hin)).
Defined.

Lemma scraped_texts_witness :
  let w := Sample.world_of ∅ Sample2.page_padded Accepts in
  (scrape_jobs w (Sample.start ∅)).1 = Ok [Sample2.job_B] ∧
  trimming (String "160"%char ("  Data Labeler " +:+ nl)) "Data Labeler".
Proof.
  set (w := Sample.world_of ∅ Sample2.page_padded Accepts).
  assert (scrape_jobs w (Sample.start ∅) =
          (Ok [Sample2.job_B], (scrape_jobs w (Sample.start ∅)).2)) as HL
    by (by vm_compute).
  split; [by rewrite HL|].
  pose proof (scraped_texts w _ _ _ HL) as Hall.
  apply Forall2_cons_1 in Hall as [(Ht & _) _]. exact Ht.
Defined.

Lemma job_id_of_piece_witness :
  job_id_of "/jobs/list_abc123" = Ok "abc123" ∧
  occurs "abc123" "/jobs/list_abc123".
Proof.
  assert (job_id_of "/jobs/list_abc123" = Ok "abc123") as Hid by done.
  split; [exact Hid|]. exact (proj1 (job_id_of_piece _ _ Hid)).
Defined.

Lemma send_email_reports_witness :
  let w := Sample.world_of Sample.password Sample.page_AB
             (RejectsLogin Sample2.auth_error) in
  ∃ st',
    send_email w (JDict Sample.config) [Sample2.job_B] (Sample.start ∅)
    = (Ok tt, st') ∧
    stdout st' = ["Error sending email: 535"].
Proof.
  set (w := Sample.world_of Sample.password Sample.page_AB
              (RejectsLogin Sample2.auth_error)).
  assert (Sample.config !! "email" = Some "me@example.org") as Hr by done.
  assert (environ w !! "SMTP_PASSWORD" = Some "app-secret") as Hpw by done.
  assert ("app-secret" ≠ EmptyString) as Hne by done.
  destruct (send_email_reports w _ _ _ [Sample2.job_B] (Sample.start ∅)
              Hr Hpw Hne) as (st' & Hrun & _ & Hout).
  by exists st'.
Defined.

Lemma send_email_contacts_relay_witness :
  let w := Sample.world_of {[ "SMTP_PASSWORD" := EmptyString ]}
             Sample.page_AB Accepts in
  smtp_log (send_email w (JDict Sample.config) [Sample2.job_B]
              (Sample.start ∅)).2 = [].
Proof.
  set (w := Sample.world_of {[ "SMTP_PASSWORD" := EmptyString ]}
              Sample.page_AB Accepts).
  assert (Sample.config !! "email" = Some "me@example.org") as Hr by done.
  destruct (decide (smtp_log (send_email w (JDict Sample.config)
                      [Sample2.job_B] (Sample.start ∅)).2
                    = smtp_log (Sample.start ∅))) as [Heq|Hneq]; [exact Heq|].
  apply (send_email_contacts_relay w _ _ [Sample2.job_B] (Sample.start ∅) Hr)
    in Hneq as (password & Hpw & Hne).
  vm_compute in Hpw. by simplify_eq.
Defined.

Lemma new_on_page_AB :
  new_jobs_of (py_set (JList ["A"]))
    [Sample.job "A" "/jobs/list_A" "Annotator";
     Sample.job "B" "/jobs/list_B" "Data Labeler"] ≠ [].
Proof. by vm_compute. Qed.

Lemma main_missing_recipient_witness :
  let w := Sample.world_of ∅ Sample.page_AB Accepts in
  let st := Sample.start (Sample.dir ∅ ["A"]) in
  ∃ st',
    main w st = (Raised (Exception "KeyError" "email"), st') ∧
    files st' = files st.
Proof.
  set (w := Sample.world_of ∅ Sample.page_AB Accepts).
  set (st := Sample.start (Sample.dir ∅ ["A"])).
  destruct (scrape_page_AB ∅ Accepts (Sample.dir ∅ ["A"])) as [st1 HL].
  assert ((∅ : gmap string string) !! "email" = None) as Hr by done.
  destruct (main_missing_recipient w st _ _ _ _
              (load_config_sample _ _) Hr (load_seen_jobs_sample _ _)
              HL new_on_page_AB)
    as (st' & Hmain & Hf & _).
  by exists st'.
Defined.

Lemma main_persists_after_relay_error_witness :
  let w := Sample.world_of Sample.password Sample.page_AB
             (RejectsMessage Sample2.auth_error) in
  let st := Sample.start (Sample.dir Sample.config ["A"]) in
  ∃ st' seen',
    main w st = (Ok tt, st') ∧
    "Error sending email: 535" ∈ stdout st' ∧
    load_seen_jobs st' = (Ok seen', st') ∧
    py_set seen' = {[ "A"; "B" ]}.
Proof.
  set (w := Sample.world_of Sample.password Sample.page_AB
              (RejectsMessage Sample2.auth_error)).
  set (st := Sample.start (Sample.dir Sample.config ["A"])).
  destruct (scrape_page_AB Sample.password (RejectsMessage Sample2.auth_error)
              (Sample.dir Sample.config ["A"])) as [st1 HL].
  assert (Sample.config !! "email" = Some "me@example.org") as Hr by done.
  assert (environ w !! "SMTP_PASSWORD" = Some "app-secret") as Hpw by done.
  assert ("app-secret" ≠ EmptyString) as Hne by done.
  assert (relay_error (mail_relay w) = Some Sample2.auth_error) as Hrelay
    by done.
  destruct (main_persists_after_relay_error w st _ _ _ _ _ _ _
              (load_config_sample _ _) Hr Hpw Hne Hrelay
              (load_seen_jobs_sample _ _) HL new_on_page_AB)
    as (st' & seen' & Hmain & Hout & Hload & Hset).
  exists st', seen'. split; [done|]. split; [done|]. split; [done|].
  rewrite Hset. by vm_compute.
Defined.

Lemma main_sends_one_message_witness :
  let w := Sample.world_of Sample.password Sample.page_AB Accepts in
  let st := Sample.start (Sample.dir Sample.config ["A"]) in
  length (smtp_log (main w st).2) = 4.
Proof.
  intros w st.
  destruct (scrape_page_AB Sample.password Accepts
              (Sample.dir Sample.config ["A"])) as [st1 HL].
  assert (Sample.config !! "email" = Some "me@example.org") as Hr by done.
  assert (environ w !! "SMTP_PASSWORD" = Some "app-secret") as Hpw by done.
  assert ("app-secret" ≠ EmptyString) as Hne by done.
  assert (mail_relay w = Accepts) as Hrelay by done.
  rewrite (main_sends_one_message w st _ _ _ _ _ _
             (load_config_sample _ _) Hr Hpw Hne Hrelay
             (load_seen_jobs_sample _ _) HL new_on_page_AB).
  reflexivity.
Defined.


Lemma main_seen_set_grows_witness :
  let w := Sample.world_of ∅ Sample.timeout Accepts in
  let st := Sample.start (Sample.dir Sample.config ["A"; "Z"]) in
  ∃ seen',
    load_seen_jobs (main w st).2 = (Ok seen', (main w st).2) ∧
    py_set (JList ["A"; "Z"]) ⊆ py_set seen'.
Proof.
  exact (main_seen_set_grows
           (Sample.world_of ∅ Sample.timeout Accepts)
           (Sample.start (Sample.dir Sample.config ["A"; "Z"])) _
           (load_seen_jobs_sample _ _)).
Defined.

Lemma main_writes_only_seen_jobs_witness :
  let w := Sample.world_of ∅ Sample.page_AB Accepts in
  let st := Sample.start (Sample.dir Sample.config ["A"]) in
  CONFIG_FILE ≠ JOBS_FILE ∧
  files (main w st).2 !! CONFIG_FILE = files st !! CONFIG_FILE.
Proof.
  assert (CONFIG_FILE ≠ JOBS_FILE) as Hname by done.
  split; [exact Hname|].
  exact (main_writes_only_seen_jobs
           (Sample.world_of ∅ Sample.page_AB Accepts)
           (Sample.start (Sample.dir Sample.config ["A"])) _ Hname).
Defined.

Lemma main_first_run_witness :
  let w := Sample.world_of ∅ Sample.page_AB Accepts in
  let st := Sample.start
              {[ CONFIG_FILE := RefJson.dumps (JDict Sample.config) ]} in
  missing JOBS_FILE st ∧
  ∃ st', main w st = (Ok tt, st') ∧
         load_seen_jobs st' = (Ok (JList ["A"; "B"]), st').
Proof.
  set (w := Sample.world_of ∅ Sample.page_AB Accepts).
  set (st := Sample.start
               {[ CONFIG_FILE := RefJson.dumps (JDict Sample.config) ]}).
  assert (load_config st = (Ok (JDict Sample.config), st)) as Hc
    by (by vm_compute).
  assert (Sample.config !! "email" = Some "me@example.org") as Hr by done.
  assert (missing JOBS_FILE st) as Hmiss by done.
  destruct (scrape_page_AB ∅ Accepts
              {[ CONFIG_FILE := RefJson.dumps (JDict Sample.config) ]})
    as [st1 HL].
  assert ([Sample.job "A" "/jobs/list_A" "Annotator";
           Sample.job "B" "/jobs/list_B" "Data Labeler"] ≠ []) as Hne by done.
  split; [exact Hmiss|].
  exact (main_first_run w st _ _ _ _ Hc Hr Hmiss HL Hne).
Defined.

Lemma main_missing_config_witness :
  let w := Sample.world_of ∅ Sample.page_AB Accepts in
  missing CONFIG_FILE (Sample.start ∅) ∧
  exit_status (main w (Sample.start ∅)).1 = 1%Z ∧
  ticks (main w (Sample.start ∅)).2 = 0.
Proof.
  intros w.
  assert (missing CONFIG_FILE (Sample.start ∅)) as Hmiss by done.
  split; [exact Hmiss|].
  by rewrite (main_missing_config w _ Hmiss).
Defined.

Lemma main_unreadable_file_witness :
  let w := Sample.world_of ∅ Sample.page_AB Accepts in
  let st := Sample.start (<[JOBS_FILE := "not json"]>
                            (Sample.dir Sample.config [])) in
  unreadable JOBS_FILE st ∧
  ∃ name, main w st = (Raised (Exception "JSONDecodeError" name), st).
Proof.
  set (w := Sample.world_of ∅ Sample.page_AB Accepts).
  set (st := Sample.start (<[JOBS_FILE := "not json"]>
                             (Sample.dir Sample.config []))).
  assert (unreadable JOBS_FILE st) as Hbad by (by exists "not json").
  assert (load_config st = (Ok (JDict Sample.config), st)) as Hc
    by (by vm_compute).
  split; [exact Hbad|].
  destruct (main_unreadable_file w st
              (or_intror (conj (ex_intro _ _ Hc) Hbad)))
    as (name & Hmain & _).
  by exists name.
Defined.

Lemma html_body_mentions_witness :
  occurs "Data Labeler" (html_body_of [Sample2.job_B]) ∧
  occurs "https://work.mercor.com/jobs/list_B" (html_body_of [Sample2.job_B]).
Proof.
  assert (Sample2.job_B ∈ [Sample2.job_B]) as Hin by left.
  destruct (html_body_mentions [Sample2.job_B] Sample2.job_B Hin)
    as (Ht & _ & _ & Hu & _).
  by split.
Defined.
